(** * The [[15,7,3]] Hamming CSS code of css-code.ipynb

    A shallow embedding of the notebook's fixed data ([H_matrix], [H_std],
    [logical_zero_components]) and of the circuits it builds
    ([pauli_error], [pauli_error_numpy], [CSS_correction],
    [CSS_correction_numpy]), together with the two readings of a Clifford
    circuit that the statements below need: the propagation of a Pauli
    error through the gates, and the computational-basis support of the
    encoder. *)

From Stdlib Require Import ZArith QArith Lia Lqa Ascii String Btauto.
From stdpp Require Import base option list strings gmap.

Set Warnings "-register-all".

Local Open Scope Z_scope.

(** ** Python values and control *)

Module Py.

(** The result of a call: a value, or the name of the exception raised. *)
Inductive outcome (A : Type) : Type :=
| Returns (a : A)
| Raises (exn : string).
Arguments Returns {A} a.
Arguments Raises {A} exn.

Definition bind {A B} (m : outcome A) (k : A → outcome B) : outcome B :=
  match m with
  | Returns a => k a
  | Raises e => Raises e
  end.

(** [for x in xs: acc = body(acc, x)], stopping at the first exception. *)
Fixpoint for_each {A S} (xs : list A) (body : S → A → outcome S) (acc : S)
  : outcome S :=
  match xs with
  | [] => Returns acc
  | x0 :: rest => bind (body acc x0) (for_each rest body)
  end.

(** [enumerate(l)] *)
Definition enumerate {A} (l : list A) : list (nat * A) :=
  imap (λ i a, (i, a)) l.

(** [range(a, b)] *)
Definition range (a b : nat) : list nat := seq a (b - a).

(** Truth value of an integer, as in [if element:]. *)
Definition truthy (n : Z) : bool := negb (n =? 0).

(** [u < p] on the rationals standing for Python floats. *)
Definition lt (u p : Q) : bool := negb (Qle_bool p u).

End Py.

Notation "x ←! m ; k" := (Py.bind m (λ x, k))
  (at level 20, m at level 100, k at level 200, only parsing).

(** ** The code's matrices and codeword list *)

Definition H_matrix : list (list Z) :=
  [ [1;0;1;0;1;0;1;0;1;0;1;0;1;0;1];
    [0;1;1;0;0;1;1;0;0;1;1;0;0;1;1];
    [0;0;0;1;1;1;1;0;0;0;0;1;1;1;1];
    [0;0;0;0;0;0;0;1;1;1;1;1;1;1;1] ].

Definition H_std : list (list Z) :=
  [ [1;0;0;0;1;0;1;1;1;0;1;0;1;0;1];
    [0;1;0;0;0;1;1;1;0;1;1;0;0;1;1];
    [0;0;1;0;0;0;0;0;1;1;1;1;1;1;1];
    [0;0;0;1;1;1;1;0;0;0;0;1;1;1;1] ].

Definition logical_zero_components : list string :=
  [ "110000110011110";
    "011010011001011";
    "000000000000000";
    "101001010101101";
    "101010101010101";
    "010101011010101";
    "001100111100110";
    "100110010110011";
    "111111110000000";
    "111100001111000";
    "100101101001011";
    "110011001100110";
    "000011111111000";
    "010110100101101";
    "001111000011110";
    "011001100110011" ]%string.

(** ** Circuits as the notebook builds them *)

Module Qiskit.

(** Rotation angles of [pauli_error], kept symbolic: they are floating
    point values of [arccos] and [sqrt]. *)
Inductive angle : Type :=
| theta_0 (p : Q)
| theta_10
| theta_11 (p : Q).

(** Qubits and classical bits are positions in the circuit; a register
    is the list of the positions it owns. *)
Inductive instruction : Type :=
| h (q : nat)
| x (q : nat)
| y (q : nat)
| z (q : nat)
| cx (control target : nat)
| swap (a b : nat)
| ry (theta : angle) (q : nat)
| cry (theta : angle) (control target : nat)
| measure (q c : nat)
| if_test (creg : list nat) (value : Z) (body : list instruction).

Record QuantumCircuit : Type := mkCircuit {
  num_qubits : nat;
  num_clbits : nat;
  data : list instruction
}.

Fixpoint qargs (i : instruction) : list nat :=
  match i with
  | h q | x q | y q | z q | ry _ q => [q]
  | cx a b | swap a b | cry _ a b => [a; b]
  | measure q _ => [q]
  | if_test _ _ body => flat_map qargs body
  end.

Fixpoint cargs (i : instruction) : list nat :=
  match i with
  | measure _ c => [c]
  | if_test creg _ body => creg ++ flat_map cargs body
  | _ => []
  end.

Definition in_range (n : nat) (l : list nat) : bool :=
  forallb (λ k, k <? n)%nat l.

(** The instruction list with one more instruction at its end. *)
Definition push (d : list instruction) (i : instruction) : list instruction :=
  d ++ [i].

(** Appending an instruction raises [CircuitError] when it names a bit
    the circuit does not have. *)
Definition append (qc : QuantumCircuit) (i : instruction)
  : Py.outcome QuantumCircuit :=
  if in_range (num_qubits qc) (qargs i) && in_range (num_clbits qc) (cargs i)
  then Py.Returns (mkCircuit (num_qubits qc) (num_clbits qc) (push (data qc) i))
  else Py.Raises "CircuitError".

(** [reg[i]] *)
Definition getitem {A} (l : list A) (i : nat) : Py.outcome A :=
  match l !! i with
  | Some a => Py.Returns a
  | None => Py.Raises "IndexError"
  end.

(** A one-qubit gate given a list of qubits is applied to each of them. *)
Definition broadcast (g : nat → instruction) (qs : list nat)
    (qc : QuantumCircuit) : Py.outcome QuantumCircuit :=
  Py.for_each qs (λ qc q, append qc (g q)) qc.

(** [qc.measure(qreg, creg)] *)
Definition measure_all (qs cs : list nat) (qc : QuantumCircuit)
  : Py.outcome QuantumCircuit :=
  if (length qs =? length cs)%nat
  then Py.for_each (zip qs cs) (λ qc qcb, append qc (measure qcb.1 qcb.2)) qc
  else Py.Raises "CircuitError".

(** Renaming of the bits of an instruction, as [compose] does. *)
Fixpoint remap (fq fc : nat → nat) (i : instruction) : instruction :=
  match i with
  | h q => h (fq q)
  | x q => x (fq q)
  | y q => y (fq q)
  | z q => z (fq q)
  | cx a b => cx (fq a) (fq b)
  | swap a b => swap (fq a) (fq b)
  | ry t q => ry t (fq q)
  | cry t a b => cry t (fq a) (fq b)
  | measure q c => measure (fq q) (fc c)
  | if_test creg v body => if_test (map fc creg) v (map (remap fq fc) body)
  end.

(** [qc.compose(other, inplace=True, qubits=..., clbits=...)] *)
Definition compose (qc other : QuantumCircuit) (qubits clbits : list nat)
  : Py.outcome QuantumCircuit :=
  if (length qubits =? num_qubits other)%nat
     && (length clbits =? num_clbits other)%nat
  then Py.for_each
         (map (remap (λ k, default 0%nat (qubits !! k))
                     (λ k, default 0%nat (clbits !! k))) (data other))
         append qc
  else Py.Raises "CircuitError".

End Qiskit.

Import Qiskit.

(** ** The noise circuits *)

(** [pauli_error_numpy(p)], with [randnum] the value [np.random.rand()]
    returns in this call. *)
Definition pauli_error_numpy (p : Q) (randnum : Q) : Py.outcome QuantumCircuit :=
  let qc := mkCircuit 1 0 [] in
  qc ←! (if Py.lt randnum p then append qc (x 0) else Py.Returns qc);
  qc ←! (if Py.lt randnum (2 * p) then append qc (y 0) else Py.Returns qc);
  qc ←! (if Py.lt randnum (3 * p) then append qc (z 0) else Py.Returns qc);
  Py.Returns qc.

(** [pauli_error(p)]: qubit 0 is the error register, qubits 1 and 2 the
    two ancillas, classical bits 0 and 1 the classical register. The
    Python float division [p/(1-2*p)] raises when its divisor is zero;
    the angles themselves stay symbolic, also where [arccos] or [sqrt]
    is applied outside its domain. *)
Definition pauli_error (p : Q) : Py.outcome QuantumCircuit :=
  let error_register := [0%nat] in
  let ancilla_register := [1%nat; 2%nat] in
  let classical_register := [0%nat; 1%nat] in
  let qc := mkCircuit 3 2 [] in
  if Qeq_bool (1 - 2 * p) 0 then Py.Raises "ZeroDivisionError" else
  e0 ←! getitem error_register 0;
  a0 ←! getitem ancilla_register 0;
  a1 ←! getitem ancilla_register 1;
  qc ←! append qc (ry (theta_0 p) a1);
  qc ←! append qc (x a1);
  qc ←! append qc (cry theta_10 a1 a0);
  qc ←! append qc (x a1);
  qc ←! append qc (cry (theta_11 p) a1 a0);
  qc ←! measure_all ancilla_register classical_register qc;
  qc ←! append qc (if_test classical_register 0 [x e0]);
  qc ←! append qc (if_test classical_register 1 [y e0; x a0]);
  qc ←! append qc (if_test classical_register 2 [z e0; x a1]);
  qc ←! append qc (if_test classical_register 3 (map x ancilla_register));
  Py.Returns qc.

(** ** The stages of [CSS_correction] and [CSS_correction_numpy]

    Both functions declare the registers in the same order, so the
    encoding qubits are qubits 0..14, the X ancillas 15..18 and the Z
    ancillas 19..22; the X syndromes are classical bits 0..3, the Z
    syndromes 4..7 and the output measurements 8..22. [CSS_correction]
    has two more qubits and two more classical bits for [pauli_error]. *)

Definition encoding_qubits : list nat := seq 0 15.
Definition x_ancillas : list nat := seq 15 4.
Definition z_ancillas : list nat := seq 19 4.
Definition pauli_error_ancilla : list nat := seq 23 2.

Definition x_syndromes : list nat := seq 0 4.
Definition z_syndromes : list nat := seq 4 4.
Definition output_measurements : list nat := seq 8 15.
Definition pauli_error_measurements : list nat := seq 23 2.

Definition stage : Type := QuantumCircuit → Py.outcome QuantumCircuit.

(** Gottesman's preparation of the logical zero from [H_std], followed by
    the swap of qubits 2 and 7. *)
Definition encode_stage : stage := λ CSS_circuit,
  CSS_circuit ←! Py.for_each (Py.range 0 4) (λ CSS_circuit i,
    qi ←! getitem encoding_qubits i;
    CSS_circuit ←! append CSS_circuit (h qi);
    Py.for_each (Py.range 4 15) (λ CSS_circuit j,
      row ←! getitem H_std i;
      entry ←! getitem row j;
      if entry =? 1
      then (qj ←! getitem encoding_qubits j; append CSS_circuit (cx qi qj))
      else Py.Returns CSS_circuit) CSS_circuit) CSS_circuit;
  q2 ←! getitem encoding_qubits 2;
  q7 ←! getitem encoding_qubits 7;
  append CSS_circuit (swap q2 q7).

(** The Pauli error of each encoding qubit, with [pauli_error]. *)
Definition pauli_error_stage (p : Q) : stage := λ CSS_circuit,
  Py.for_each (Py.range 0 15) (λ CSS_circuit i,
    qi ←! getitem encoding_qubits i;
    err ←! pauli_error p;
    compose CSS_circuit err (qi :: pauli_error_ancilla) pauli_error_measurements)
    CSS_circuit.

(** The same with [pauli_error_numpy]; [randnums i] is the number drawn
    by the call made for qubit [i]. *)
Definition pauli_error_numpy_stage (p : Q) (randnums : nat → Q) : stage :=
  λ CSS_circuit,
  Py.for_each (Py.range 0 15) (λ CSS_circuit i,
    qi ←! getitem encoding_qubits i;
    err ←! pauli_error_numpy p (randnums i);
    compose CSS_circuit err [qi] []) CSS_circuit.

(** Produces and measures the X syndromes. *)
Definition x_syndrome_stage : stage := λ CSS_circuit,
  CSS_circuit ←! Py.for_each (Py.enumerate H_matrix)
    (λ CSS_circuit '(syndrome_index, entry),
      Py.for_each (Py.enumerate entry) (λ CSS_circuit '(index, element),
        if Py.truthy element
        then (q ←! getitem encoding_qubits index;
              a ←! getitem x_ancillas syndrome_index;
              append CSS_circuit (cx q a))
        else Py.Returns CSS_circuit) CSS_circuit) CSS_circuit;
  measure_all x_ancillas x_syndromes CSS_circuit.

(** Produces and measures the Z syndromes. *)
Definition z_syndrome_stage : stage := λ CSS_circuit,
  CSS_circuit ←! broadcast h z_ancillas CSS_circuit;
  CSS_circuit ←! Py.for_each (Py.enumerate H_matrix)
    (λ CSS_circuit '(syndrome_index, entry),
      Py.for_each (Py.enumerate entry) (λ CSS_circuit '(index, element),
        if Py.truthy element
        then (a ←! getitem z_ancillas syndrome_index;
              q ←! getitem encoding_qubits index;
              append CSS_circuit (cx a q))
        else Py.Returns CSS_circuit) CSS_circuit) CSS_circuit;
  CSS_circuit ←! broadcast h z_ancillas CSS_circuit;
  measure_all z_ancillas z_syndromes CSS_circuit.

(** Corrects X errors by examination of the X syndromes. *)
Definition x_correction_stage : stage := λ CSS_circuit,
  Py.for_each (Py.range 0 15) (λ CSS_circuit i,
    qi ←! getitem encoding_qubits i;
    append CSS_circuit (if_test x_syndromes (Z.of_nat i + 1) [x qi]))
    CSS_circuit.

(** Corrects Z errors by examination of the Z syndromes. *)
Definition z_correction_stage : stage := λ CSS_circuit,
  Py.for_each (Py.range 0 15) (λ CSS_circuit i,
    qi ←! getitem encoding_qubits i;
    append CSS_circuit (if_test z_syndromes (Z.of_nat i + 1) [z qi]))
    CSS_circuit.

(** Measures the output. *)
Definition output_stage : stage :=
  measure_all encoding_qubits output_measurements.

Definition decoding_stages : stage := λ CSS_circuit,
  CSS_circuit ←! x_syndrome_stage CSS_circuit;
  CSS_circuit ←! z_syndrome_stage CSS_circuit;
  CSS_circuit ←! x_correction_stage CSS_circuit;
  CSS_circuit ←! z_correction_stage CSS_circuit;
  output_stage CSS_circuit.

Definition CSS_correction (p : Q) : Py.outcome QuantumCircuit :=
  let CSS_circuit := mkCircuit 25 25 [] in
  CSS_circuit ←! encode_stage CSS_circuit;
  CSS_circuit ←! pauli_error_stage p CSS_circuit;
  decoding_stages CSS_circuit.

Definition CSS_correction_numpy (p : Q) (randnums : nat → Q)
  : Py.outcome QuantumCircuit :=
  let CSS_circuit := mkCircuit 23 23 [] in
  CSS_circuit ←! encode_stage CSS_circuit;
  CSS_circuit ←! pauli_error_numpy_stage p randnums CSS_circuit;
  decoding_stages CSS_circuit.

(** The instructions a stage adds to an empty circuit on [n] qubits and
    [n] classical bits. *)
Definition instructions_of (n : nat) (s : stage) : list instruction :=
  match s (mkCircuit n n []) with
  | Py.Returns qc => data qc
  | Py.Raises _ => []
  end.

(** ** Bit vectors over GF(2) *)

Module GF2.

Definition bitvector : Type := list bool.

Definition zero (n : nat) : bitvector := replicate n false.

(** The vector of length [n] whose only set bit is at [q]. *)
Definition unit (n q : nat) : bitvector := <[q := true]> (zero n).

Definition weight (v : bitvector) : nat := length (filter (λ b, b = true) v).

Definition add (u v : bitvector) : bitvector := zip_with xorb u v.

Definition of_row (row : list Z) : bitvector := map Py.truthy row.

(** XOR of the bits of [v] at the positions where [row] is 1. *)
Definition parity (row : list Z) (v : bitvector) : bool :=
  foldr xorb false (zip_with andb (of_row row) v).

(** Value of a register, its first bit being the least significant. *)
Fixpoint value (bits : list bool) : Z :=
  match bits with
  | [] => 0
  | b :: rest => Z.b2z b + 2 * value rest
  end.

(** The syndrome of [v]: bit [r] is the parity of [v] on row [r]. *)
Definition syndrome (H : list (list Z)) (v : bitvector) : Z :=
  value (map (λ row, parity row v) H).

(** Column [i] of a matrix, from the first row to the last. *)
Definition column (H : list (list Z)) (i : nat) : list Z :=
  map (λ row, default 0 (row !! i)) H.

(** Exchange of the entries at [i] and [j]; nothing happens when one of
    them is out of range. *)
Definition swap_entries {A} (i j : nat) (l : list A) : list A :=
  match l !! i, l !! j with
  | Some a, Some b => <[i := b]> (<[j := a]> l)
  | _, _ => l
  end.

Definition swap_rows (i j : nat) (H : list (list Z)) : list (list Z) :=
  swap_entries i j H.

Definition swap_columns (i j : nat) (H : list (list Z)) : list (list Z) :=
  map (swap_entries i j) H.

(** All bit vectors of length [n]. *)
Fixpoint all_vectors (n : nat) : list bitvector :=
  match n with
  | O => [[]]
  | S m => map (cons false) (all_vectors m) ++ map (cons true) (all_vectors m)
  end.

(** The combination of the rows of [H] selected by [coeffs]. *)
Definition combination (n : nat) (H : list (list Z)) (coeffs : bitvector)
  : bitvector :=
  foldr add (zero n)
        (zip_with (λ (c : bool) row, if c then of_row row else zero n) coeffs H).

(** The combinations of the rows of [H] for all the coefficients. *)
Definition row_space (n : nat) (H : list (list Z)) : list bitvector :=
  map (combination n H) (all_vectors (length H)).

End GF2.

(** ** Errors carried through the circuit

    The Pauli error on the qubits relative to the run without noise: its
    X part [fx] and its Z part [fz], one bit per qubit. A Pauli gate
    multiplies it, a Clifford gate conjugates it, and a measurement
    writes into the classical bit the value of the noise-free run,
    flipped when the measured qubit carries an X error. The noise-free
    values [ω] are what is random in one shot of the circuit. The
    syndrome ancillas measure 0 in the noise-free run; [run] is the shot
    in which every noise-free value is 0, so that its syndrome registers
    hold the measured syndromes and its output register holds how the
    output differs from the noise-free one. Rotations are not Clifford
    gates and have no meaning here. *)

Module PauliFrame.

Record state : Type := mkState {
  fx : list bool;
  fz : list bool;
  clbits : list bool;
  fired : list instruction
}.

Definition toggle (l : list bool) (q : nat) (b : bool) : option (list bool) :=
  v ← l !! q; Some (<[q := xorb v b]> l).

Definition exchange (l : list bool) (a b : nat) : option (list bool) :=
  va ← l !! a; vb ← l !! b; Some (<[a := vb]> (<[b := va]> l)).

Definition gate (ω : nat → bool) (i : instruction) (s : state)
  : option state :=
  match i with
  | x q => fx' ← toggle (fx s) q true;
           Some (mkState fx' (fz s) (clbits s) (fired s))
  | z q => fz' ← toggle (fz s) q true;
           Some (mkState (fx s) fz' (clbits s) (fired s))
  | y q => fx' ← toggle (fx s) q true;
           fz' ← toggle (fz s) q true;
           Some (mkState fx' fz' (clbits s) (fired s))
  | h q => a ← fx s !! q; b ← fz s !! q;
           Some (mkState (<[q := b]> (fx s)) (<[q := a]> (fz s))
                         (clbits s) (fired s))
  | cx c t => xc ← fx s !! c; zt ← fz s !! t;
              fx' ← toggle (fx s) t xc;
              fz' ← toggle (fz s) c zt;
              Some (mkState fx' fz' (clbits s) (fired s))
  | swap a b => fx' ← exchange (fx s) a b;
                fz' ← exchange (fz s) a b;
                Some (mkState fx' fz' (clbits s) (fired s))
  | measure q c => v ← fx s !! q; _ ← clbits s !! c;
                   Some (mkState (fx s) (fz s)
                                 (<[c := xorb (ω c) v]> (clbits s)) (fired s))
  | _ => None
  end.

(** Value of a classical register in the state. *)
Definition read (creg : list nat) (s : state) : option Z :=
  bits ← mapM (λ c, clbits s !! c) creg; Some (GF2.value bits).

(** [f] on each element of a list in turn, until one fails. *)
Definition chain {A} (f : A → state → option state)
  : list A → state → option state :=
  fix go l s :=
    match l with
    | [] => Some s
    | a :: rest => s' ← f a s; go rest s'
    end.

(** One instruction; the body of an [if_test] runs when the register
    holds the tested value, and is then recorded in [fired]. *)
Fixpoint step (ω : nat → bool) (i : instruction) (s : state)
  : option state :=
  match i with
  | if_test creg v body =>
      r ← read creg s;
      if r =? v
      then chain (step ω) body
                 (mkState (fx s) (fz s) (clbits s) (fired s ++ body))
      else Some s
  | _ => gate ω i s
  end.

(** One shot of a circuit. *)
Definition shot (ω : nat → bool) : list instruction → state → option state :=
  chain (step ω).

Definition run : list instruction → state → option state :=
  shot (λ _, false).

(** The state in which the encoding qubits carry the X error [ex] and
    the Z error [ez], and nothing else carries an error. *)
Definition inject (ex ez : GF2.bitvector) : state :=
  mkState (ex ++ GF2.zero 8) (ez ++ GF2.zero 8) (GF2.zero 23) [].

End PauliFrame.

(** ** The instructions of the decoding stages *)

Definition decoding : list instruction := instructions_of 23 decoding_stages.

Definition corrections : list instruction :=
  instructions_of 23 x_correction_stage ++ instructions_of 23 z_correction_stage.

(** The error left on the encoding qubits. *)
Definition residual_x (s : PauliFrame.state) : GF2.bitvector :=
  take 15 (PauliFrame.fx s).
Definition residual_z (s : PauliFrame.state) : GF2.bitvector :=
  take 15 (PauliFrame.fz s).

(** What the decoding stages do to an error: the two syndromes read, the
    bodies of the branches taken, and the error left. *)
Record decoded : Type := mkDecoded {
  x_syndrome : Z;
  z_syndrome : Z;
  applied : list instruction;
  left_x : GF2.bitvector;
  left_z : GF2.bitvector
}.

Definition decode (ex ez : GF2.bitvector) : option decoded :=
  s ← PauliFrame.run decoding (PauliFrame.inject ex ez);
  sx ← PauliFrame.read x_syndromes s;
  sz ← PauliFrame.read z_syndromes s;
  Some (mkDecoded sx sz (PauliFrame.fired s) (residual_x s) (residual_z s)).

(** The instructions of the two syndrome stages alone. *)
Definition syndrome_extraction : list instruction :=
  instructions_of 23 (λ CSS_circuit,
    CSS_circuit ←! x_syndrome_stage CSS_circuit; z_syndrome_stage CSS_circuit).

(** ** The standard form *)

Definition identity_matrix (n : nat) : list (list Z) :=
  map (λ r, map (λ c, if (r =? c)%nat then 1 else 0) (seq 0 n)) (seq 0 n).

(** ** Bit strings *)

Module Bitstring.

Definition digit (b : bool) : Ascii.ascii := if b then "1"%char else "0"%char.

(** The bits of a string of 0s and 1s, from its first character on. *)
Fixpoint bits (s : string) : GF2.bitvector :=
  match s with
  | EmptyString => []
  | String c rest => Ascii.eqb c "1" :: bits rest
  end.

(** A vector written from its first coordinate on. *)
Fixpoint written (v : GF2.bitvector) : string :=
  match v with
  | [] => EmptyString
  | b :: rest => String (digit b) (written rest)
  end.

(** The key under which Qiskit counts a measurement: the first bit of
    the register is the last character. *)
Definition key (v : GF2.bitvector) : string := written (reverse v).

(** The values of the bits of a register, read from a key. *)
Definition of_key (s : string) : GF2.bitvector := reverse (bits s).

End Bitstring.

(** ** The basis states of the encoder

    The computational-basis states on which the state of the circuit is
    supported. A Hadamard gate on a qubit that is 0 in each of them adds
    the states with that qubit set; the gates CNOT, SWAP and X act on
    each state; anything else is outside this reading. *)

Module Basis.

Definition support : Type := list GF2.bitvector.

Definition flip (q : nat) (v : GF2.bitvector) : option GF2.bitvector :=
  b ← v !! q; Some (<[q := negb b]> v).

Definition cnot (c t : nat) (v : GF2.bitvector) : option GF2.bitvector :=
  bc ← v !! c; bt ← v !! t; Some (<[t := xorb bt bc]> v).

Definition exchange (a b : nat) (v : GF2.bitvector) : option GF2.bitvector :=
  va ← v !! a; vb ← v !! b; Some (<[a := vb]> (<[b := va]> v)).

Definition step (i : instruction) (s : support) : option support :=
  match i with
  | h q =>
      if forallb (λ v, bool_decide (v !! q = Some false)) s
      then Some (s ++ map (λ v, <[q := true]> v) s)
      else None
  | x q => mapM (flip q) s
  | cx c t => mapM (cnot c t) s
  | swap a b => mapM (exchange a b) s
  | _ => None
  end.

Fixpoint run (prog : list instruction) (s : support) : option support :=
  match prog with
  | [] => Some s
  | i :: rest => s' ← step i s; run rest s'
  end.

End Basis.

Definition encoder : list instruction := instructions_of 23 encode_stage.

(** The values of the encoding qubits in the basis states the encoder
    prepares from the all-zero state. *)
Definition encoder_codewords : option (list GF2.bitvector) :=
  s ← Basis.run encoder [GF2.zero 23]; Some (map (take 15) s).

(** The codeword set in the words of the specification: the combinations
    of the rows of [H_std], with coordinates 2 and 7 exchanged. *)
Definition spec_codewords : list GF2.bitvector :=
  map (GF2.swap_entries 2 7) (GF2.row_space 15 H_std).

(** Coordinatewise XOR of two strings of 0s and 1s. *)
Definition xor_strings (a b : string) : string :=
  Bitstring.written (GF2.add (Bitstring.bits a) (Bitstring.bits b)).

(** ** One-qubit Pauli operators *)

Module Pauli.

(** The operator [i^phase · X^xpart · Z^zpart], with [phase] modulo 4. *)
Record op : Type := mkOp { phase : Z; xpart : bool; zpart : bool }.

Definition I : op := mkOp 0 false false.
Definition X : op := mkOp 0 true false.
Definition Z : op := mkOp 0 false true.
Definition Y : op := mkOp 1 true true.

(** The product [a · b]; moving [Z] across [X] costs a sign. *)
Definition mul (a b : op) : op :=
  mkOp ((phase a + phase b + (if zpart a && xpart b then 2 else 0)) mod 4)
       (xorb (xpart a) (xpart b)) (xorb (zpart a) (zpart b)).

(** The operator of a gate on qubit 0. *)
Definition of_gate (i : instruction) : option op :=
  match i with
  | x 0 => Some X
  | y 0 => Some Y
  | z 0 => Some Z
  | _ => None
  end.

(** The operator of a one-qubit circuit of Pauli gates: the gates act in
    the order of the list, so the last one is the leftmost factor. *)
Fixpoint operator (gates : list instruction) : option op :=
  match gates with
  | [] => Some I
  | g :: rest => a ← of_gate g; b ← operator rest; Some (mul b a)
  end.

(** An operator up to its phase. *)
Inductive kind : Type := identity | X_error | Y_error | Z_error.

Definition kind_of (o : op) : kind :=
  match xpart o, zpart o with
  | false, false => identity
  | true, false => X_error
  | true, true => Y_error
  | false, true => Z_error
  end.

End Pauli.

(** The Pauli error, up to phase, that the circuit [pauli_error_numpy]
    returns applies to its qubit. *)
Definition net_error (p randnum : Q) : option Pauli.kind :=
  match pauli_error_numpy p randnum with
  | Py.Returns qc => Pauli.kind_of <$> Pauli.operator (data qc)
  | Py.Raises _ => None
  end.

(** The outcome for each part of [0,1) in the words of the
    specification. *)
Definition spec_net_error (p randnum : Q) : Pauli.kind :=
  if Py.lt randnum p then Pauli.X_error
  else if Py.lt randnum (2 * p) then Pauli.Y_error
  else if Py.lt randnum (3 * p) then Pauli.Z_error
  else Pauli.identity.

(** The effect of a one-qubit Pauli operator on the error of qubit 0. *)
Definition act (o : Pauli.op) (s : PauliFrame.state) : option PauliFrame.state :=
  fx' ← PauliFrame.toggle (PauliFrame.fx s) 0 (Pauli.xpart o);
  fz' ← PauliFrame.toggle (PauliFrame.fz s) 0 (Pauli.zpart o);
  Some (PauliFrame.mkState fx' fz' (PauliFrame.clbits s) (PauliFrame.fired s)).

(** ** The instructions of the noise circuits *)

(** The gates of the circuit of [pauli_error_numpy]: the three tests are
    independent, so each one that holds adds its gate. *)
Definition stacked_gates (p randnum : Q) : list instruction :=
  (if Py.lt randnum p then [x 0] else [])
  ++ (if Py.lt randnum (2 * p) then [y 0] else [])
  ++ (if Py.lt randnum (3 * p) then [z 0] else []).

(** The gates of [pauli_error(p)]. *)
Definition pauli_error_gates (p : Q) : list instruction :=
  [ry (theta_0 p) 2; x 2; cry theta_10 2 1; x 2; cry (theta_11 p) 2 1;
   measure 1 0; measure 2 1;
   if_test [0%nat; 1%nat] 0 [x 0];
   if_test [0%nat; 1%nat] 1 [y 0; x 1];
   if_test [0%nat; 1%nat] 2 [z 0; x 2];
   if_test [0%nat; 1%nat] 3 [x 1; x 2]].

(** The error instructions of the two circuits: the gates of the noise
    circuit of each encoding qubit, moved to that qubit and, for
    [pauli_error], to the two ancillas and classical bits it uses. *)
Definition numpy_noise (p : Q) (randnums : nat → Q) : list instruction :=
  flat_map (λ i, map (remap (λ _, i) (λ c, c)) (stacked_gates p (randnums i)))
           (seq 0 15).

Definition ancilla_noise (p : Q) : list instruction :=
  flat_map (λ i, map (remap (λ k, match k with O => i | _ => 22 + k end)%nat
                            (λ c, 23 + c)%nat) (pauli_error_gates p))
           (seq 0 15).

(** ** The decoder as a lookup *)

(** The qubit a syndrome value points at: none for 0, qubit [v-1] for a
    value [v] between 1 and 15, which is the branch of the correction
    stage testing [v]. *)
Definition lookup_qubit (v : Z) : option nat :=
  if (1 <=? v) && (v <=? 15) then Some (Z.to_nat (v - 1)) else None.

(** An error after the gate of the branch taken for the value [v]. *)
Definition corrected (e : GF2.bitvector) (v : Z) : GF2.bitvector :=
  match lookup_qubit v with
  | Some q => alter negb q e
  | None => e
  end.

(** The body of the branch taken for the value [v]. *)
Definition correction_gates (g : nat → instruction) (v : Z)
  : list instruction :=
  match lookup_qubit v with
  | Some q => [g q]
  | None => []
  end.

(** The parities of a vector on the rows of [H_matrix]. *)
Definition parities (e : GF2.bitvector) : list bool :=
  map (λ row, GF2.parity row e) H_matrix.

(** The state after the decoding stages, for the X error [ex] and the Z
    error [ez] on the encoding qubits and the noise-free values [ω]. *)
Definition decoded_state (ω : nat → bool) (ex ez : GF2.bitvector)
  : PauliFrame.state :=
  let sx := GF2.syndrome H_matrix ex in
  let sz := GF2.syndrome H_matrix ez in
  PauliFrame.mkState
    (corrected ex sx ++ parities ex ++ parities ez)
    (corrected ez sz ++ GF2.zero 8)
    (parities ex ++ parities ez
     ++ zip_with xorb (map ω output_measurements) (corrected ex sx))
    (correction_gates x sx ++ correction_gates z sz).

(** ** Scoring a trial *)

(** Python's [s[a:b]] for [0 <= a <= b]. *)
Definition slice (a b : nat) (s : string) : string :=
  String.substring a (b - a) s.

(** The characters of one register in a key of [get_counts()]. *)
Definition register_key (creg : list nat) (clbits : list bool) : string :=
  Bitstring.key (map (λ c, default false (clbits !! c)) creg).

(** A key of [get_counts()]: the registers from the last declared to the
    first, separated by spaces. *)
Definition counts_key (cregs : list (list nat)) (clbits : list bool)
  : string :=
  String.concat " " (reverse (map (λ creg, register_key creg clbits) cregs)).

(** The classical registers of the two circuits, in the order of their
    declaration. *)
Definition cregs_numpy : list (list nat) :=
  [x_syndromes; z_syndromes; output_measurements].
Definition cregs_ancilla : list (list nat) :=
  [x_syndromes; z_syndromes; output_measurements; pauli_error_measurements].

(** [key[:15] in logical_zero_components], the test of the trials of
    [CSS_correction_numpy]. *)
Definition scored_numpy (clbits : list bool) : bool :=
  bool_decide (slice 0 15 (counts_key cregs_numpy clbits)
               ∈ logical_zero_components).

(** [key[3:18] in logical_zero_components], the test of the trials of
    [CSS_correction]. *)
Definition scored_ancilla (clbits : list bool) : bool :=
  bool_decide (slice 3 18 (counts_key cregs_ancilla clbits)
               ∈ logical_zero_components).

(** The noise-free values of a shot in which the output, without noise,
    is the codeword [cw]: the syndromes are 0. *)
Definition noise_free (cw : GF2.bitvector) : nat → bool :=
  λ c, if (8 <=? c)%nat then default false (cw !! (c - 8)%nat) else false.

(** The classical bits at the end of the decoding stages of that shot. *)
Definition trial (cw ex ez : GF2.bitvector) : option (list bool) :=
  s ← PauliFrame.shot (noise_free cw) decoding (PauliFrame.inject ex ez);
  Some (PauliFrame.clbits s).

(** The values of the encoding qubits the encoder prepares. *)
Definition prepared_codewords : list GF2.bitvector :=
  default [] encoder_codewords.

(** The error of one Pauli operator on qubit [q] of the 15: its X part
    and its Z part. *)
Definition pauli_at (k : Pauli.kind) (q : nat) : GF2.bitvector * GF2.bitvector :=
  match k with
  | Pauli.identity => (GF2.zero 15, GF2.zero 15)
  | Pauli.X_error => (GF2.unit 15 q, GF2.zero 15)
  | Pauli.Y_error => (GF2.unit 15 q, GF2.unit 15 q)
  | Pauli.Z_error => (GF2.zero 15, GF2.unit 15 q)
  end.

(** The X part and the Z part of the error that the gates of
    [pauli_error_numpy] put on the qubits, for the draws [randnums]: Y
    counts for both, and gates on the same qubit multiply. *)
Definition sampled_x (p : Q) (randnums : nat → Q) : GF2.bitvector :=
  map (λ i, xorb (Py.lt (randnums i) p) (Py.lt (randnums i) (2 * p)))
      (seq 0 15).
Definition sampled_z (p : Q) (randnums : nat → Q) : GF2.bitvector :=
  map (λ i, xorb (Py.lt (randnums i) (2 * p)) (Py.lt (randnums i) (3 * p)))
      (seq 0 15).

(** The instructions of [pauli_error] from the measurement on. *)
Definition measured_branches (gates : list instruction) : list instruction :=
  drop 5 gates.

(** The Pauli operator of the branch of [pauli_error] for a value of its
    classical register. *)
Definition branch_operator (v : Z) : Pauli.op :=
  match v with
  | 0 => Pauli.X
  | 1 => Pauli.Y
  | 2 => Pauli.Z
  | _ => Pauli.I
  end.

(** The CNOT gates of the X syndrome stage, which come before its
    measurements. *)
Definition x_syndrome_cnots : list instruction :=
  take 32 (instructions_of 23 x_syndrome_stage).

(** The loop of the scoring cells: [success += counts[key]] for the keys
    that pass the test, in the order of the dictionary. *)
Definition count_successes (test : string → bool) (counts : list (string * Z))
  : Z :=
  foldl (λ success kc, if test kc.1 then success + kc.2 else success) 0 counts.

(** [success/rounds], the number printed. *)
Definition success_rate (test : string → bool) (counts : list (string * Z))
    (rounds : Z) : Py.outcome Q :=
  if rounds =? 0 then Py.Raises "ZeroDivisionError"
  else Py.Returns (inject_Z (count_successes test counts) / inject_Z rounds)%Q.

(** The number of shots a dictionary of counts stands for. *)
Definition shots (counts : list (string * Z)) : Z :=
  foldr Z.add 0 (map snd counts).

(** The circuit of the last cell: [pauli_error] on one qubit and two
    ancillas, then the measurement of the qubit into a register of its
    own, declared after the register of [pauli_error]. *)
Definition pauli_error_check (p : Q) : Py.outcome QuantumCircuit :=
  let qr := [0%nat] in
  let ar := [1%nat; 2%nat] in
  let cr := [0%nat; 1%nat] in
  let output := [2%nat] in
  let qc := mkCircuit 3 3 [] in
  err ←! pauli_error p;
  qc ←! compose qc err (qr ++ ar) cr;
  measure_all qr output qc.

Definition cregs_check : list (list nat) := [[0%nat; 1%nat]; [2%nat]].

(** * Properties *)

(** ** Comparisons of Python floats *)

Lemma lt_iff u p : Py.lt u p = true ↔ (u < p)%Q.
Proof.
  unfold Py.lt. rewrite negb_true_iff.
  split.
  - intros Hb. apply Qnot_le_lt. intros Hle.
    apply Qle_bool_iff in Hle. congruence.
  - intros Hlt. destruct (Qle_bool p u) eqn:Hb; [|reflexivity].
    apply Qle_bool_iff in Hb. exfalso. exact (Qlt_not_le _ _ Hlt Hb).
Qed.

Lemma lt_false_iff u p : Py.lt u p = false ↔ (p <= u)%Q.
Proof.
  unfold Py.lt. rewrite negb_false_iff. apply Qle_bool_iff.
Qed.

(** ** Branches not taken *)

Lemma shot_cons ω i prog s :
  PauliFrame.shot ω (i :: prog) s
  = PauliFrame.step ω i s ≫= PauliFrame.shot ω prog.
Proof. reflexivity. Qed.

(** A branch whose register holds another value than the tested one
    leaves the state as it is. *)
Lemma step_untaken creg v body s r :
  PauliFrame.read creg s = Some r → r ≠ v →
  ∀ ω, PauliFrame.step ω (if_test creg v body) s = Some s.
Proof.
  intros Hr Hne ω. cbn [PauliFrame.step]. rewrite Hr. cbn.
  destruct (r =? v) eqn:E; [|reflexivity].
  apply Z.eqb_eq in E. contradiction.
Qed.

Lemma run_untaken prog s :
  Forall (λ i, ∃ creg v body, i = if_test creg v body
               ∧ ∃ r, PauliFrame.read creg s = Some r ∧ r ≠ v) prog →
  PauliFrame.run prog s = Some s.
Proof.
  induction 1 as [|i prog (creg & v & body & -> & r & Hr & Hne) _ IH];
    [reflexivity|].
  unfold PauliFrame.run. rewrite shot_cons, (step_untaken _ _ _ _ _ Hr Hne).
  exact IH.
Qed.

(** Branch [i] of each correction stage tests the value [i+1] and holds
    the gate on qubit [i]. *)
Lemma x_correction_branches :
  instructions_of 23 x_correction_stage
  = map (λ i, if_test x_syndromes (Z.of_nat i + 1) [x i]) (seq 0 15).
Proof. reflexivity. Qed.

Lemma z_correction_branches :
  instructions_of 23 z_correction_stage
  = map (λ i, if_test z_syndromes (Z.of_nat i + 1) [z i]) (seq 0 15).
Proof. reflexivity. Qed.

(** ** Vectors of weight one *)

Lemma weight_cons b (v : GF2.bitvector) :
  GF2.weight (b :: v) = ((if b then 1 else 0) + GF2.weight v)%nat.
Proof. destruct b; reflexivity. Qed.

Lemma weight_zero_inv (v : GF2.bitvector) :
  GF2.weight v = 0%nat → v = GF2.zero (length v).
Proof.
  induction v as [|b v IH]; [reflexivity|].
  rewrite weight_cons. destruct b; [discriminate|].
  intros Hw. cbn. f_equal. apply IH. exact Hw.
Qed.

Lemma weight_one_inv (v : GF2.bitvector) :
  ∀ q, GF2.weight v = 1%nat → v !! q = Some true → v = GF2.unit (length v) q.
Proof.
  induction v as [|b v IH]; intros q Hw Hq; [discriminate|].
  rewrite weight_cons in Hw. destruct q as [|q]; cbn in Hq.
  - injection Hq as ->. cbn. f_equal.
    apply weight_zero_inv. lia.
  - destruct b.
    + assert (Hz : GF2.weight v = 0%nat) by lia.
      apply weight_zero_inv in Hz. rewrite Hz in Hq.
      unfold GF2.zero in Hq. apply lookup_replicate in Hq as [? _].
      discriminate.
    + cbn. f_equal. apply IH; [exact Hw | exact Hq].
Qed.

(** ** The syndromes the circuit reads *)

(** [GF2.all_vectors n] misses no vector of length [n]. *)
Lemma all_vectors_complete (v : GF2.bitvector) :
  v ∈ GF2.all_vectors (length v).
Proof.
  induction v as [|b v IH]; cbn [length GF2.all_vectors].
  - apply list_elem_of_here.
  - apply elem_of_app. destruct b; [right | left];
      apply list_elem_of_fmap; exists v; (split; [reflexivity | exact IH]).
Qed.

Lemma four_bits_eq (a b c d a' b' c' d' : bool) :
  a = a' → b = b' → c = c' → d = d' →
  Some (GF2.value [a; b; c; d]) = Some (GF2.value [a'; b'; c'; d']).
Proof. intros -> -> -> ->. reflexivity. Qed.

Lemma decoding_begins_with_extraction :
  decoding = syndrome_extraction ++ corrections
             ++ instructions_of 23 output_stage.
Proof. reflexivity. Qed.

(** For every X error and Z error on the 15 encoding qubits together,
    the two syndrome stages leave in the X syndrome register the
    syndrome under [H_matrix] of the X error and in the Z syndrome
    register that of the Z error, and do not change the error on the
    encoding qubits. *)
Lemma syndrome_extraction_reads (ex ez : GF2.bitvector) :
  length ex = 15%nat → length ez = 15%nat →
  ∃ s, PauliFrame.run syndrome_extraction (PauliFrame.inject ex ez) = Some s
       ∧ PauliFrame.read x_syndromes s = Some (GF2.syndrome H_matrix ex)
       ∧ PauliFrame.read z_syndromes s = Some (GF2.syndrome H_matrix ez)
       ∧ residual_x s = ex ∧ residual_z s = ez.
Proof.
  intros Hx Hz.
  do 15 (destruct ex as [|? ex]; [discriminate|]).
  destruct ex; [|discriminate].
  do 15 (destruct ez as [|? ez]; [discriminate|]).
  destruct ez; [|discriminate].
  clear Hx Hz.
  let v := eval vm_compute in syndrome_extraction in
    change syndrome_extraction with v.
  eexists. split; [lazy -[xorb andb]; reflexivity|].
  lazy -[xorb andb GF2.value].
  repeat split.
  - apply four_bits_eq; btauto.
  - apply four_bits_eq; btauto.
  - rewrite ?xorb_false_r. reflexivity.
  - rewrite ?xorb_false_r. reflexivity.
Qed.

(** ** Single errors and no error *)

(** C1. A length-15 error with exactly one bit set, at index [q], has
    syndrome [q+1] under [H_matrix]; as an X error the decoding stages
    read X syndrome [q+1] and Z syndrome 0, take the branch of qubit [q]
    alone, whose body is the X gate on [q], and leave no error on the
    encoding qubits; as a Z error the same holds with the Z syndrome and
    the Z gate. *)
Theorem single_error_corrected (e : GF2.bitvector) (q : nat) :
  length e = 15%nat → GF2.weight e = 1%nat → e !! q = Some true →
  GF2.syndrome H_matrix e = Z.of_nat q + 1
  ∧ decode e (GF2.zero 15)
    = Some (mkDecoded (Z.of_nat q + 1) 0 [x q] (GF2.zero 15) (GF2.zero 15))
  ∧ decode (GF2.zero 15) e
    = Some (mkDecoded 0 (Z.of_nat q + 1) [z q] (GF2.zero 15) (GF2.zero 15)).
Proof.
  intros Hlen Hw Hq.
  assert (Hlt : (q < 15)%nat).
  { rewrite <- Hlen. eapply lookup_lt_Some. exact Hq. }
  rewrite (weight_one_inv e q Hw Hq), Hlen. clear e Hlen Hw Hq.
  do 15 (destruct q as [|q]; [vm_compute; repeat split; reflexivity|]).
  lia.
Qed.

Lemma single_error_corrected_witness :
  let e := GF2.unit 15 9 in
  length e = 15%nat ∧ GF2.weight e = 1%nat ∧ e !! 9%nat = Some true
  ∧ GF2.syndrome H_matrix e = 10
  ∧ decode e (GF2.zero 15)
    = Some (mkDecoded 10 0 [x 9] (GF2.zero 15) (GF2.zero 15))
  ∧ decode (GF2.zero 15) e
    = Some (mkDecoded 0 10 [z 9] (GF2.zero 15) (GF2.zero 15)).
Proof.
  split; [reflexivity|]. split; [reflexivity|]. split; [reflexivity|].
  apply (single_error_corrected (GF2.unit 15 9) 9); reflexivity.
Defined.

(** C8. The all-zero error has syndrome 0 under [H_matrix]; the decoding
    stages read 0 in both syndrome registers and take no branch, every
    branch testing a value between 1 and 15; and whenever both syndrome
    registers hold 0 the correction stages return the state they were
    given, which is a result and not a failure. *)
Theorem no_error_no_correction :
  GF2.syndrome H_matrix (GF2.zero 15) = 0
  ∧ decode (GF2.zero 15) (GF2.zero 15)
    = Some (mkDecoded 0 0 [] (GF2.zero 15) (GF2.zero 15))
  ∧ Forall (λ i, ∃ creg v body, i = if_test creg v body ∧ 1 <= v <= 15)
           corrections
  ∧ ∀ s, PauliFrame.read x_syndromes s = Some 0 →
         PauliFrame.read z_syndromes s = Some 0 →
         PauliFrame.run corrections s = Some s.
Proof.
  split; [reflexivity|]. split; [reflexivity|]. split.
  - unfold corrections. vm_compute instructions_of. cbn [app].
    repeat (apply Forall_cons; split;
            [do 3 eexists; split; [reflexivity | lia]|]).
    constructor.
  - intros s Hx Hz. apply run_untaken.
    unfold corrections. rewrite x_correction_branches, z_correction_branches.
    cbn [seq map app].
    repeat (apply Forall_cons; split;
            [do 3 eexists; split; [reflexivity|]; eexists; split;
             [first [exact Hx | exact Hz] | lia]|]).
    constructor.
Qed.

(** A state in which both syndrome registers hold 0 although the qubits
    carry errors, as after two errors that cancel in the syndrome: the
    correction stages leave it as it is. *)
Lemma corrections_skip_undetected_error :
  let s := PauliFrame.mkState (GF2.add (GF2.unit 23 0) (GF2.unit 23 1))
                              (GF2.unit 23 2) (GF2.zero 23) [] in
  PauliFrame.read x_syndromes s = Some 0
  ∧ PauliFrame.read z_syndromes s = Some 0
  ∧ PauliFrame.run corrections s = Some s.
Proof. repeat split; reflexivity. Qed.

(** ** The columns of [H_matrix] *)

(** C3. For every column index [i] in 0..14, column [i] of [H_matrix]
    read with row 0 as the least significant bit is the integer [i+1]:
    its value is [i+1], and its entry in row [r] is bit [r] of [i+1]. *)
Theorem columns_are_binary (i : nat) :
  (i < 15)%nat →
  GF2.value (GF2.of_row (GF2.column H_matrix i)) = Z.of_nat i + 1
  ∧ GF2.column H_matrix i
    = map (λ r, Z.b2z (Z.testbit (Z.of_nat i + 1) (Z.of_nat r))) (seq 0 4).
Proof.
  intros Hi.
  do 15 (destruct i as [|i]; [split; reflexivity|]).
  lia.
Qed.

Lemma columns_are_binary_witness :
  (10 < 15)%nat
  ∧ GF2.value (GF2.of_row (GF2.column H_matrix 10)) = 11
  ∧ GF2.column H_matrix 10 = [1; 1; 0; 1].
Proof.
  split; [lia|]. apply (columns_are_binary 10). lia.
Defined.

(** C4. [H_std] is [H_matrix] after the exchange of its third and fourth
    rows and then of its third and eighth columns (positions 2, 3 and
    2, 7 from zero), and its first four columns are the identity. *)
Theorem H_std_is_reduced_H_matrix :
  H_std = GF2.swap_columns 2 7 (GF2.swap_rows 2 3 H_matrix)
  ∧ map (take 4) H_std = identity_matrix 4.
Proof. split; reflexivity. Qed.

(** ** Sets given by lists *)

Section list_sets.
Context `{Countable A}.

(** Two lists with the same elements give the same set. *)
Lemma list_to_set_ext (l1 l2 : list A) :
  Forall (λ a, a ∈ l2) l1 → Forall (λ a, a ∈ l1) l2 →
  list_to_set l1 =@{gset A} list_to_set l2.
Proof.
  rewrite !Forall_forall. intros H12 H21.
  apply set_eq. intros a. rewrite !elem_of_list_to_set.
  split; [apply H12 | apply H21].
Qed.

Lemma list_to_set_differ (l1 l2 : list A) (a : A) :
  a ∈ l1 → a ∉ l2 → list_to_set l1 ≠@{gset A} list_to_set l2.
Proof.
  intros Hin Hout Heq. apply Hout.
  apply (elem_of_list_to_set (C := gset A)). rewrite <- Heq.
  apply elem_of_list_to_set. exact Hin.
Qed.

End list_sets.

(** ** The codeword list *)

Ltac by_evaluation := apply (bool_decide_unpack _); vm_compute; exact I.

(** C2, as stated: with each vector written from its first coordinate
    on, the combinations of the rows of [H_std] with coordinates 2 and 7
    exchanged are not the strings of [logical_zero_components]: the
    fourth row of [H_matrix] is one of them and is not in the list. *)
Lemma codewords_written_forward_differ :
  "000000011111111"%string ∈ map Bitstring.written spec_codewords
  ∧ ("000000011111111"%string ∉ logical_zero_components)
  ∧ list_to_set (map Bitstring.written spec_codewords)
    ≠@{gset string} list_to_set logical_zero_components.
Proof.
  assert (Hin : "000000011111111"%string ∈ map Bitstring.written spec_codewords)
    by by_evaluation.
  assert (Hout : "000000011111111"%string ∉ logical_zero_components)
    by by_evaluation.
  split; [exact Hin|]. split; [exact Hout|].
  exact (list_to_set_differ _ _ _ Hin Hout).
Qed.

(** C2, amended. The encoder prepares 16 basis states from the all-zero
    state; the values of the encoding qubits in them are, as a set, the
    combinations of the rows of [H_std] with coordinates 2 and 7
    exchanged, which are 2^4 distinct vectors; and the keys of these
    vectors, in which the last character is coordinate 0, are as a set
    the 16 strings of [logical_zero_components]. *)
Theorem codewords_are_keys_of_row_space :
  (∃ cw, encoder_codewords = Some cw ∧ length cw = 16%nat
         ∧ list_to_set cw =@{gset GF2.bitvector} list_to_set spec_codewords)
  ∧ length spec_codewords = (2 ^ 4)%nat
  ∧ NoDup spec_codewords
  ∧ list_to_set (map Bitstring.key spec_codewords)
    =@{gset string} list_to_set logical_zero_components.
Proof.
  split; [|split; [reflexivity|split; [by_evaluation|]]].
  - eexists. split; [vm_compute; reflexivity|]. split; [reflexivity|].
    apply list_to_set_ext; by_evaluation.
  - apply list_to_set_ext; by_evaluation.
Qed.

(** C5, as stated: with position [i] of an entry taken to be its
    character [i], the first entry of the list meets the last row of
    [H_matrix] in five positions and has syndrome 8. *)
Lemma entry_read_forward_has_syndrome :
  let entry := "110000110011110"%string in
  logical_zero_components !! 0%nat = Some entry
  ∧ H_matrix !! 3%nat = Some [0;0;0;0;0;0;0;1;1;1;1;1;1;1;1]
  ∧ GF2.weight (zip_with andb (GF2.of_row [0;0;0;0;0;0;0;1;1;1;1;1;1;1;1])
                              (Bitstring.bits entry)) = 5%nat
  ∧ GF2.syndrome H_matrix (Bitstring.bits entry) = 8
  ∧ ¬ Forall (λ s, GF2.syndrome H_matrix (Bitstring.bits s) = 0)
             logical_zero_components.
Proof.
  cbv zeta. repeat split; try reflexivity.
  intros HF. apply Forall_cons in HF as [Hs _].
  vm_compute in Hs. discriminate.
Qed.

(** C5, amended. [logical_zero_components] has 2^4 = 16 entries,
    contains the all-zero string and is closed under coordinatewise XOR;
    and every entry, with its last character taken as qubit 0, has
    syndrome 0 under [H_matrix], every row of [H_matrix] meeting it in
    an even number of positions, so that the decoding stages read 0 in
    both syndrome registers and take no branch when it is the X part or
    the Z part of the error. *)
Theorem codeword_list_invariants :
  length logical_zero_components = (2 ^ 4)%nat
  ∧ "000000000000000"%string ∈ logical_zero_components
  ∧ Forall (λ a, Forall (λ b, xor_strings a b ∈ logical_zero_components)
                        logical_zero_components) logical_zero_components
  ∧ Forall (λ s,
      let v := Bitstring.of_key s in
      Forall (λ row, Nat.Even (GF2.weight (zip_with andb (GF2.of_row row) v)))
             H_matrix
      ∧ GF2.syndrome H_matrix v = 0
      ∧ (∃ d, decode v (GF2.zero 15) = Some d
              ∧ x_syndrome d = 0 ∧ z_syndrome d = 0 ∧ applied d = [])
      ∧ (∃ d, decode (GF2.zero 15) v = Some d
              ∧ x_syndrome d = 0 ∧ z_syndrome d = 0 ∧ applied d = []))
    logical_zero_components.
Proof.
  split; [reflexivity|]. split; [by_evaluation|]. split; [by_evaluation|].
  unfold logical_zero_components.
  repeat (apply Forall_cons; split;
    [cbv zeta; split;
      [repeat (apply Forall_cons; split;
                 [apply Nat.even_spec; reflexivity|]); constructor
      |split; [reflexivity|];
       split; (eexists; split; [vm_compute; reflexivity|];
               repeat split; reflexivity)]|]).
  constructor.
Qed.

(** C10. Every string of [logical_zero_components] other than the
    all-zero one has exactly eight 1s, and the 16 strings are pairwise
    distinct. *)
Theorem codeword_list_weights :
  Forall (λ s, s ≠ "000000000000000"%string →
               GF2.weight (Bitstring.bits s) = 8%nat) logical_zero_components
  ∧ NoDup logical_zero_components.
Proof. split; by_evaluation. Qed.

(** ** The sampler [pauli_error_numpy] *)

Lemma pauli_error_numpy_returns (p randnum : Q) :
  pauli_error_numpy p randnum
  = Py.Returns (mkCircuit 1 0 (stacked_gates p randnum)).
Proof.
  unfold pauli_error_numpy, stacked_gates.
  destruct (Py.lt randnum p), (Py.lt randnum (2 * p)),
    (Py.lt randnum (3 * p)); reflexivity.
Qed.

Lemma lt_scale (u p : Q) (k : Q) :
  (0 <= p)%Q → (1 <= k)%Q → Py.lt u p = true → Py.lt u (k * p) = true.
Proof.
  rewrite !lt_iff. intros Hp Hk Hu.
  eapply Qlt_le_trans; [exact Hu|].
  rewrite <- (Qmult_1_l p) at 1. apply Qmult_le_compat_r; assumption.
Qed.

Lemma lt_2_3 (u p : Q) :
  (0 <= p)%Q → Py.lt u (2 * p) = true → Py.lt u (3 * p) = true.
Proof.
  rewrite !lt_iff. intros Hp Hu.
  eapply Qlt_le_trans; [exact Hu|].
  apply Qmult_le_compat_r; [|exact Hp]. discriminate.
Qed.


(** C6, at [p = 0.2] and a draw of [0.1], which is below [p]: the circuit
    holds the gates X, Y and Z, whose product is [-i] times the identity,
    where the claim has an X error; and at a draw of [0.3], between [p]
    and [2p], it holds Y and Z, whose product is [-i X], where the claim
    has a Y error. *)
Theorem pauli_error_numpy_stacks_gates :
  pauli_error_numpy (1 # 5) (1 # 10) = Py.Returns (mkCircuit 1 0 [x 0; y 0; z 0])
  ∧ Pauli.operator [x 0; y 0; z 0] = Some (Pauli.mkOp 3 false false)
  ∧ net_error (1 # 5) (1 # 10) = Some Pauli.identity
  ∧ spec_net_error (1 # 5) (1 # 10) = Pauli.X_error
  ∧ pauli_error_numpy (1 # 5) (3 # 10) = Py.Returns (mkCircuit 1 0 [y 0; z 0])
  ∧ Pauli.operator [y 0; z 0] = Some (Pauli.mkOp 3 true false)
  ∧ net_error (1 # 5) (3 # 10) = Some Pauli.X_error
  ∧ spec_net_error (1 # 5) (3 # 10) = Pauli.Y_error.
Proof. repeat split; reflexivity. Qed.

(** ** Out-of-range probabilities *)

(** C7, as stated: [p = 1/2] is not in [0, 1/3], and
    [pauli_error_numpy] returns a circuit for it instead of raising
    [InvalidParameterError]. *)
Lemma pauli_error_numpy_accepts_one_half :
  ¬ (0 <= 1 # 2 <= 1 # 3)%Q
  ∧ pauli_error_numpy (1 # 2) (1 # 4)
    = Py.Returns (mkCircuit 1 0 [x 0; y 0; z 0])
  ∧ pauli_error_numpy (1 # 2) (1 # 4) ≠ Py.Raises "InvalidParameterError".
Proof.
  split; [intros [_ Hle]; apply Hle; reflexivity|].
  split; [reflexivity | discriminate].
Qed.

(** C7, amended. Neither sampler checks [p]: for every [p], in
    [0, 1/3] or not, and every draw, [pauli_error_numpy] returns a
    circuit on one qubit, which holds some of the gates X, Y, Z in this
    order; and [pauli_error] raises no [InvalidParameterError], the only
    exception of its own being the [ZeroDivisionError] of [p/(1-2p)]. *)
Theorem samplers_do_not_validate (p randnum : Q) :
  (∃ gates, pauli_error_numpy p randnum = Py.Returns (mkCircuit 1 0 gates)
            ∧ sublist gates [x 0; y 0; z 0])
  ∧ pauli_error p ≠ Py.Raises "InvalidParameterError"
  ∧ (∀ exn, pauli_error p = Py.Raises exn →
            exn = "ZeroDivisionError"%string ∧ (1 - 2 * p == 0)%Q).
Proof.
  split; [|split].
  - exists (stacked_gates p randnum).
    split; [apply pauli_error_numpy_returns|].
    unfold stacked_gates.
    destruct (Py.lt randnum p), (Py.lt randnum (2 * p)),
      (Py.lt randnum (3 * p)); cbn [app];
      repeat first [apply sublist_nil | apply sublist_skip | apply sublist_cons
                   | apply sublist_cons_r ].
  - unfold pauli_error.
    destruct (Qeq_bool (1 - 2 * p) 0); discriminate.
  - intros exn. unfold pauli_error.
    destruct (Qeq_bool (1 - 2 * p) 0) eqn:E; [|discriminate].
    intros [= <-]. split; [reflexivity|]. apply Qeq_bool_iff. exact E.
Qed.

(** ** Replays of a constructed circuit *)

(** A shot is random in general: the same circuit, measuring a qubit and
    testing the result, ends differently under two noise-free values. *)
Lemma shot_depends_on_measurement :
  let prog := [measure 0 0; if_test [0%nat] 1 [x 0]] in
  let s := PauliFrame.mkState [false] [false] [false] [] in
  PauliFrame.shot (λ _, false) prog s ≠ PauliFrame.shot (λ _, true) prog s.
Proof. cbv zeta. vm_compute. discriminate. Qed.

(** C9. A circuit returned by [pauli_error_numpy] has one Pauli operator,
    fixed when it was built: every shot of it, whatever is random in the
    shot, applies that operator to the error of its qubit, so any two
    replays from the same state end in the same state. *)
Theorem replay_is_deterministic (p randnum : Q) (qc : QuantumCircuit) :
  pauli_error_numpy p randnum = Py.Returns qc →
  ∃ o, Pauli.operator (data qc) = Some o
       ∧ (∀ ω s, length (PauliFrame.fx s) = 1%nat →
                 length (PauliFrame.fz s) = 1%nat →
                 PauliFrame.shot ω (data qc) s = act o s)
       ∧ (∀ ω1 ω2 s, length (PauliFrame.fx s) = 1%nat →
                     length (PauliFrame.fz s) = 1%nat →
                     PauliFrame.shot ω1 (data qc) s
                     = PauliFrame.shot ω2 (data qc) s).
Proof.
  rewrite pauli_error_numpy_returns. intros [= <-]. cbn [data].
  assert (Hshot : ∃ o, Pauli.operator (stacked_gates p randnum) = Some o
            ∧ ∀ ω s, length (PauliFrame.fx s) = 1%nat →
                     length (PauliFrame.fz s) = 1%nat →
                     PauliFrame.shot ω (stacked_gates p randnum) s = act o s).
  { unfold stacked_gates.
    destruct (Py.lt randnum p), (Py.lt randnum (2 * p)),
      (Py.lt randnum (3 * p)); cbn [app];
      (eexists; split; [reflexivity|]);
      intros ω [[|ax [|? ?]] [|az [|? ?]] cl fd] Hx Hz; try discriminate;
      destruct ax, az; reflexivity. }
  destruct Hshot as (o & Ho & Hact).
  exists o. split; [exact Ho|]. split; [exact Hact|].
  intros ω1 ω2 s Hx Hz. rewrite !Hact by assumption. reflexivity.
Qed.

Lemma replay_is_deterministic_witness :
  pauli_error_numpy (1 # 5) (3 # 10) = Py.Returns (mkCircuit 1 0 [y 0; z 0])
  ∧ ∃ o, Pauli.operator [y 0; z 0] = Some o
       ∧ (∀ ω s, length (PauliFrame.fx s) = 1%nat →
                 length (PauliFrame.fz s) = 1%nat →
                 PauliFrame.shot ω [y 0; z 0] s = act o s)
       ∧ (∀ ω1 ω2 s, length (PauliFrame.fx s) = 1%nat →
                     length (PauliFrame.fz s) = 1%nat →
                     PauliFrame.shot ω1 [y 0; z 0] s
                     = PauliFrame.shot ω2 [y 0; z 0] s).
Proof.
  split; [reflexivity|].
  apply (replay_is_deterministic (1 # 5) (3 # 10) (mkCircuit 1 0 [y 0; z 0])).
  reflexivity.
Defined.

(** Two constructions with different draws can hold different
    operators: a new outcome comes from a new call. *)
Lemma reconstruction_can_differ :
  net_error (1 # 5) (3 # 10) = Some Pauli.X_error
  ∧ net_error (1 # 5) (1 # 2) = Some Pauli.Z_error
  ∧ net_error (1 # 5) (9 # 10) = Some Pauli.identity.
Proof. repeat split; reflexivity. Qed.

(** ** The circuits returned *)

Ltac normalise_pushes :=
  lazymatch goal with
  | |- ?lhs = Py.Returns (mkCircuit ?n ?m (?d ++ ?l)) =>
      let v := eval cbv -[push] in lhs in
      let l' := eval vm_compute in l in
      change (v = Py.Returns (mkCircuit n m (d ++ l')))
  end;
  unfold push; rewrite <- ?app_assoc; cbn [app]; rewrite ?app_nil_r;
  reflexivity.

Lemma for_each_appends {A} (n m : nat) (xs : list A)
    (body : QuantumCircuit → A → Py.outcome QuantumCircuit)
    (f : A → list instruction) :
  (∀ a d, a ∈ xs →
          body (mkCircuit n m d) a = Py.Returns (mkCircuit n m (d ++ f a))) →
  ∀ d, Py.for_each xs body (mkCircuit n m d)
       = Py.Returns (mkCircuit n m (d ++ flat_map f xs)).
Proof.
  induction xs as [|a xs IH]; intros Hbody d; cbn [Py.for_each flat_map].
  - rewrite app_nil_r. reflexivity.
  - rewrite Hbody by apply list_elem_of_here. cbn [Py.bind].
    rewrite IH.
    + rewrite <- app_assoc. reflexivity.
    + intros b d' Hb. apply Hbody. apply list_elem_of_further. exact Hb.
Qed.

Lemma encode_stage_appends (n : nat) (d : list instruction) :
  n = 23%nat ∨ n = 25%nat →
  encode_stage (mkCircuit n n d) = Py.Returns (mkCircuit n n (d ++ encoder)).
Proof. intros [-> | ->]; normalise_pushes. Qed.

Lemma decoding_stages_appends (n : nat) (d : list instruction) :
  n = 23%nat ∨ n = 25%nat →
  decoding_stages (mkCircuit n n d) = Py.Returns (mkCircuit n n (d ++ decoding)).
Proof. intros [-> | ->]; normalise_pushes. Qed.

Lemma pauli_error_returns (p : Q) :
  Qeq_bool (1 - 2 * p) 0 = false →
  pauli_error p = Py.Returns (mkCircuit 3 2 (pauli_error_gates p)).
Proof. intros E. unfold pauli_error. rewrite E. reflexivity. Qed.

Lemma pauli_error_numpy_stage_appends (p : Q) (randnums : nat → Q) d :
  pauli_error_numpy_stage p randnums (mkCircuit 23 23 d)
  = Py.Returns (mkCircuit 23 23 (d ++ numpy_noise p randnums)).
Proof.
  unfold pauli_error_numpy_stage, numpy_noise.
  apply (for_each_appends 23 23). clear d. intros i d Hi.
  rewrite pauli_error_numpy_returns. unfold stacked_gates.
  change (Py.range 0 15) with (seq 0 15) in Hi. cbn [seq] in Hi.
  repeat (apply elem_of_cons in Hi as [-> | Hi]);
    [destruct (Py.lt (randnums _) p), (Py.lt (randnums _) (2 * p)),
       (Py.lt (randnums _) (3 * p)); normalise_pushes ..|].
  apply elem_of_nil in Hi. contradiction.
Qed.

Lemma pauli_error_stage_appends (p : Q) d :
  Qeq_bool (1 - 2 * p) 0 = false →
  pauli_error_stage p (mkCircuit 25 25 d)
  = Py.Returns (mkCircuit 25 25 (d ++ ancilla_noise p)).
Proof.
  intros E. unfold pauli_error_stage, ancilla_noise.
  apply (for_each_appends 25 25). clear d. intros i d Hi.
  rewrite (pauli_error_returns p E).
  change (Py.range 0 15) with (seq 0 15) in Hi. cbn [seq] in Hi.
  repeat (apply elem_of_cons in Hi as [-> | Hi]); [normalise_pushes ..|].
  apply elem_of_nil in Hi. contradiction.
Qed.

(** [CSS_correction_numpy] returns, for every [p] and all draws, the
    encoder followed by the error gates and the decoding stages. *)
Lemma CSS_correction_numpy_returns (p : Q) (randnums : nat → Q) :
  CSS_correction_numpy p randnums
  = Py.Returns (mkCircuit 23 23 (encoder ++ numpy_noise p randnums ++ decoding)).
Proof.
  unfold CSS_correction_numpy.
  rewrite (encode_stage_appends 23) by (left; reflexivity). cbn [Py.bind].
  rewrite pauli_error_numpy_stage_appends. cbn [Py.bind].
  rewrite (decoding_stages_appends 23) by (left; reflexivity).
  rewrite <- app_assoc. reflexivity.
Qed.

(** [CSS_correction] returns the same encoder and decoding stages around
    the error circuits of [pauli_error]. *)
Lemma CSS_correction_returns (p : Q) :
  Qeq_bool (1 - 2 * p) 0 = false →
  CSS_correction p
  = Py.Returns (mkCircuit 25 25 (encoder ++ ancilla_noise p ++ decoding)).
Proof.
  intros E. unfold CSS_correction.
  rewrite (encode_stage_appends 25) by (right; reflexivity). cbn [Py.bind].
  rewrite (pauli_error_stage_appends p _ E). cbn [Py.bind].
  rewrite (decoding_stages_appends 25) by (right; reflexivity).
  rewrite <- app_assoc. reflexivity.
Qed.


(** ** The decoding stages on every error *)

Lemma chain_app {A} (f : A → PauliFrame.state → option PauliFrame.state)
    (l1 l2 : list A) (s : PauliFrame.state) :
  PauliFrame.chain f (l1 ++ l2) s
  = PauliFrame.chain f l1 s ≫= PauliFrame.chain f l2.
Proof.
  revert s. induction l1 as [|a l1 IH]; intros s; [reflexivity|].
  cbn [app PauliFrame.chain]. destruct (f a s) as [s'|]; [|reflexivity].
  cbn. apply IH.
Qed.

Lemma shot_app ω (l1 l2 : list instruction) (s : PauliFrame.state) :
  PauliFrame.shot ω (l1 ++ l2) s
  = PauliFrame.shot ω l1 s ≫= PauliFrame.shot ω l2.
Proof. apply chain_app. Qed.

Lemma cons_eq {A} (a a' : A) (l l' : list A) :
  a = a' → l = l' → a :: l = a' :: l'.
Proof. intros -> ->. reflexivity. Qed.

Lemma state_eq fx fx' fz fz' cl cl' fd :
  fx = fx' → fz = fz' → cl = cl' →
  Some (PauliFrame.mkState fx fz cl fd) = Some (PauliFrame.mkState fx' fz' cl' fd).
Proof. intros -> -> ->. reflexivity. Qed.

Ltac fifteen_bits e H :=
  do 15 (destruct e as [|? e]; [discriminate H|]);
  destruct e; [clear H | discriminate H].

Ltac four_bits e H :=
  do 4 (destruct e as [|? e]; [discriminate H|]);
  destruct e; [clear H | discriminate H].

(** After the two syndrome stages the X ancillas and the X syndrome
    register hold the parities of the X error, the Z ancillas and the Z
    syndrome register those of the Z error, and the errors on the
    encoding qubits are as before. *)
Lemma extraction_state ω (ex ez : GF2.bitvector) :
  (∀ c, (c < 8)%nat → ω c = false) →
  length ex = 15%nat → length ez = 15%nat →
  PauliFrame.shot ω syndrome_extraction (PauliFrame.inject ex ez)
  = Some (PauliFrame.mkState (ex ++ parities ex ++ parities ez)
                             (ez ++ GF2.zero 8)
                             (parities ex ++ parities ez ++ GF2.zero 15) []).
Proof.
  intros Hω Hx Hz. fifteen_bits ex Hx. fifteen_bits ez Hz.
  let v := eval vm_compute in syndrome_extraction in
    change syndrome_extraction with v.
  lazy -[xorb andb].
  rewrite (Hω 0%nat), (Hω 1%nat), (Hω 2%nat), (Hω 3%nat), (Hω 4%nat),
    (Hω 5%nat), (Hω 6%nat), (Hω 7%nat) by lia.
  apply state_eq; repeat (apply cons_eq; [btauto|]); reflexivity.
Qed.

(** The correction stages and the output stage, from the state the
    syndrome stages leave: the branch of the qubit each syndrome value
    points at is the only one taken, and the output register holds the
    noise-free values flipped by the X error left. *)
Lemma corrections_state ω (ex ez px pz : GF2.bitvector) :
  length ex = 15%nat → length ez = 15%nat →
  length px = 4%nat → length pz = 4%nat →
  PauliFrame.shot ω (corrections ++ instructions_of 23 output_stage)
    (PauliFrame.mkState (ex ++ px ++ pz) (ez ++ GF2.zero 8)
                        (px ++ pz ++ GF2.zero 15) [])
  = Some (PauliFrame.mkState
            (corrected ex (GF2.value px) ++ px ++ pz)
            (corrected ez (GF2.value pz) ++ GF2.zero 8)
            (px ++ pz ++ zip_with xorb (map ω output_measurements)
                                       (corrected ex (GF2.value px)))
            (correction_gates x (GF2.value px)
             ++ correction_gates z (GF2.value pz))).
Proof.
  intros Hx Hz Hpx Hpz.
  fifteen_bits ex Hx. fifteen_bits ez Hz. four_bits px Hpx. four_bits pz Hpz.
  repeat match goal with b : bool |- context [GF2.value ?l] =>
    match l with context [b] => destruct b end end;
    vm_compute; reflexivity.
Qed.

Lemma decoding_is_lookup ω (ex ez : GF2.bitvector) :
  (∀ c, (c < 8)%nat → ω c = false) →
  length ex = 15%nat → length ez = 15%nat →
  PauliFrame.shot ω decoding (PauliFrame.inject ex ez)
  = Some (decoded_state ω ex ez).
Proof.
  intros Hω Hx Hz.
  rewrite decoding_begins_with_extraction, shot_app.
  rewrite (extraction_state ω ex ez Hω Hx Hz). cbn [mbind option_bind].
  apply corrections_state; [exact Hx | exact Hz | reflexivity..].
Qed.

Lemma corrected_length (e : GF2.bitvector) (v : Z) :
  length (corrected e v) = length e.
Proof.
  unfold corrected. destruct (lookup_qubit v); [apply length_alter | reflexivity].
Qed.

Lemma value_four_bits (a b c d : bool) : 0 <= GF2.value [a; b; c; d] <= 15.
Proof. destruct a, b, c, d; cbn; lia. Qed.

(** The decoding stages on any error: the syndromes read, the gates
    applied and the errors left. *)
Lemma decode_eq (ex ez : GF2.bitvector) :
  length ex = 15%nat → length ez = 15%nat →
  decode ex ez
  = Some (mkDecoded (GF2.syndrome H_matrix ex) (GF2.syndrome H_matrix ez)
            (correction_gates x (GF2.syndrome H_matrix ex)
             ++ correction_gates z (GF2.syndrome H_matrix ez))
            (corrected ex (GF2.syndrome H_matrix ex))
            (corrected ez (GF2.syndrome H_matrix ez))).
Proof.
  intros Hx Hz. unfold decode, PauliFrame.run.
  rewrite decoding_is_lookup by (reflexivity || assumption).
  cbn [mbind option_bind].
  unfold residual_x, residual_z, decoded_state.
  cbn [PauliFrame.fx PauliFrame.fz PauliFrame.fired].
  rewrite !take_app_length' by (rewrite corrected_length; congruence).
  reflexivity.
Qed.

Lemma syndrome_range (e : GF2.bitvector) :
  0 <= GF2.syndrome H_matrix e <= 15.
Proof. apply value_four_bits. Qed.

(** X4. For every X error and Z error on the 15 encoding qubits, of any
    weight, the decoding stages read the syndromes of the two under
    [H_matrix], which lie between 0 and 15; for a syndrome [v] other
    than 0 they apply the gate of qubit [v-1] and no other, for the
    syndrome 0 they apply none; and the errors left are the errors with
    that one qubit flipped. *)
Theorem decode_is_lookup (ex ez : GF2.bitvector) :
  length ex = 15%nat → length ez = 15%nat →
  let sx := GF2.syndrome H_matrix ex in
  let sz := GF2.syndrome H_matrix ez in
  decode ex ez
  = Some (mkDecoded sx sz
            (correction_gates x sx ++ correction_gates z sz)
            (corrected ex sx) (corrected ez sz))
  ∧ 0 <= sx <= 15 ∧ 0 <= sz <= 15
  ∧ (lookup_qubit sx = None ↔ sx = 0)
  ∧ (lookup_qubit sz = None ↔ sz = 0).
Proof.
  intros Hx Hz sx sz.
  pose proof (syndrome_range ex) as Hbx. pose proof (syndrome_range ez) as Hbz.
  fold sx in Hbx. fold sz in Hbz.
  split; [apply decode_eq; assumption|].
  split; [exact Hbx|]. split; [exact Hbz|].
  clearbody sx sz. unfold lookup_qubit.
  split.
  - destruct (Z.leb_spec 1 sx), (Z.leb_spec sx 15); cbn; split;
      intros; first [reflexivity | discriminate | lia].
  - destruct (Z.leb_spec 1 sz), (Z.leb_spec sz 15); cbn; split;
      intros; first [reflexivity | discriminate | lia].
Qed.

(** ** Keys and slices *)

Lemma bits_written (v : GF2.bitvector) : Bitstring.bits (Bitstring.written v) = v.
Proof.
  induction v as [|b v IH]; [reflexivity|].
  cbn [Bitstring.written Bitstring.bits]. rewrite IH. destruct b; reflexivity.
Qed.

Lemma of_key_key (v : GF2.bitvector) : Bitstring.of_key (Bitstring.key v) = v.
Proof.
  unfold Bitstring.of_key, Bitstring.key.
  rewrite bits_written. apply reverse_involutive.
Qed.

Tactic Notation "list_of_length" ident(e) ident(H) integer(n) :=
  do n (destruct e as [|? e]; [discriminate H|]);
  destruct e; [clear H | discriminate H].

(** X10. In a key of [get_counts()] of the circuit of
    [CSS_correction_numpy], which has 23 classical bits, [key[:15]] is
    the output register; in one of the circuit of [CSS_correction],
    which has 25, [key[3:18]] is the output register, and [key[:15]]
    would be the register of [pauli_error], a space and only twelve
    characters of the output. *)
Theorem slices_pick_output_register (clbits : list bool) :
  (length clbits = 23%nat →
   slice 0 15 (counts_key cregs_numpy clbits)
   = register_key output_measurements clbits)
  ∧ (length clbits = 25%nat →
     slice 3 18 (counts_key cregs_ancilla clbits)
     = register_key output_measurements clbits
     ∧ slice 0 15 (counts_key cregs_ancilla clbits)
       = (register_key pauli_error_measurements clbits ++ " "
          ++ slice 0 12 (register_key output_measurements clbits))%string).
Proof.
  split; intros H.
  - list_of_length clbits H 23. reflexivity.
  - list_of_length clbits H 25. split; reflexivity.
Qed.

(** ** Trials *)

Lemma noise_free_syndromes (cw : GF2.bitvector) (c : nat) :
  (c < 8)%nat → noise_free cw c = false.
Proof.
  intros Hc. unfold noise_free.
  destruct (Nat.leb_spec 8 c); [lia | reflexivity].
Qed.

(** The classical bits at the end of a trial and its score. *)
Lemma trial_scored (cw ex ez : GF2.bitvector) :
  length cw = 15%nat → length ex = 15%nat → length ez = 15%nat →
  let left := corrected ex (GF2.syndrome H_matrix ex) in
  trial cw ex ez = Some (parities ex ++ parities ez ++ GF2.add cw left)
  ∧ register_key x_syndromes (parities ex ++ parities ez ++ GF2.add cw left)
    = Bitstring.key (parities ex)
  ∧ register_key output_measurements
      (parities ex ++ parities ez ++ GF2.add cw left)
    = Bitstring.key (GF2.add cw left)
  ∧ scored_numpy (parities ex ++ parities ez ++ GF2.add cw left)
    = bool_decide (Bitstring.key (GF2.add cw left) ∈ logical_zero_components).
Proof.
  intros Hc Hx Hz left.
  assert (Hl : length left = 15%nat)
    by (unfold left; rewrite corrected_length; exact Hx).
  unfold trial.
  rewrite decoding_is_lookup
    by first [apply noise_free_syndromes | assumption].
  cbn [mbind option_bind]. unfold decoded_state. cbn [PauliFrame.clbits].
  fold left. clearbody left. clear Hx. 
  assert (Hp : length (parities ex) = 4%nat) by reflexivity.
  assert (Hq : length (parities ez) = 4%nat) by reflexivity.
  generalize dependent (parities ex). intros px Hp.
  generalize dependent (parities ez). intros pz Hq.
  list_of_length cw Hc 15. list_of_length left Hl 15.
  list_of_length px Hp 4. list_of_length pz Hq 4.
  repeat split; reflexivity.
Qed.

Lemma add_cancel (u v : GF2.bitvector) :
  length u = length v → GF2.add u (GF2.add u v) = v.
Proof.
  revert v. induction u as [|a u IH]; intros [|b v] H; try discriminate H;
    [reflexivity|].
  cbn. f_equal; [destruct a, b; reflexivity|].
  apply IH. injection H as H. exact H.
Qed.

Lemma prepared_codewords_length (cw : GF2.bitvector) :
  cw ∈ prepared_codewords → length cw = 15%nat.
Proof.
  intros H. vm_compute in H.
  repeat (apply elem_of_cons in H as [-> | H]; [reflexivity|]).
  apply elem_of_nil in H. contradiction.
Qed.

(** A trial is scored a success exactly when the X error left after the
    correction is one of the prepared codewords. *)
Lemma scored_iff_codeword (cw left : GF2.bitvector) :
  cw ∈ prepared_codewords → length left = 15%nat →
  Bitstring.key (GF2.add cw left) ∈ logical_zero_components
  ↔ left ∈ prepared_codewords.
Proof.
  intros Hcw Hl. split.
  - intros Hkey.
    assert (Hv : ∃ c, c ∈ map Bitstring.of_key logical_zero_components
                      ∧ GF2.add cw left = c).
    { exists (GF2.add cw left). split; [|reflexivity].
      rewrite <- (of_key_key (GF2.add cw left)).
      apply list_elem_of_fmap. eexists. split; [reflexivity | exact Hkey]. }
    destruct Hv as (c & Hc & Hadd).
    assert (Hleft : left = GF2.add cw c).
    { rewrite <- Hadd. symmetry. apply add_cancel.
      rewrite Hl. apply prepared_codewords_length. exact Hcw. }
    rewrite Hleft. clear Hleft Hadd Hkey Hl left.
    vm_compute in Hcw. vm_compute in Hc.
    repeat (apply elem_of_cons in Hcw as [-> | Hcw];
      [repeat (apply elem_of_cons in Hc as [-> | Hc]; [by_evaluation|]);
       apply elem_of_nil in Hc; contradiction|]).
    apply elem_of_nil in Hcw. contradiction.
  - intros Hleft. clear Hl.
    vm_compute in Hcw. vm_compute in Hleft.
    repeat (apply elem_of_cons in Hcw as [-> | Hcw];
      [repeat (apply elem_of_cons in Hleft as [-> | Hleft]; [by_evaluation|]);
       apply elem_of_nil in Hleft; contradiction|]).
    apply elem_of_nil in Hcw. contradiction.
Qed.

(** X7. A trial whose noise-free output is one of the prepared codewords
    is scored a success by [key[:15] in logical_zero_components] exactly
    when the X error left on the encoding qubits after the correction is
    itself one of the prepared codewords, whatever the Z error. *)
Theorem trial_succeeds_iff_residual_is_codeword (cw ex ez : GF2.bitvector) :
  cw ∈ prepared_codewords → length ex = 15%nat → length ez = 15%nat →
  ∃ bits, trial cw ex ez = Some bits
          ∧ (scored_numpy bits = true
             ↔ corrected ex (GF2.syndrome H_matrix ex) ∈ prepared_codewords).
Proof.
  intros Hcw Hx Hz.
  destruct (trial_scored cw ex ez (prepared_codewords_length cw Hcw) Hx Hz)
    as (Ht & _ & _ & Hs).
  eexists. split; [exact Ht|].
  rewrite Hs, bool_decide_eq_true.
  apply scored_iff_codeword; [exact Hcw|].
  rewrite corrected_length. exact Hx.
Qed.

(** A trial whose X error, after the correction, is a prepared codeword
    is scored a success, and one whose X error left is not a codeword is
    scored a failure. *)
Lemma trial_score (cw ex ez : GF2.bitvector) (b : bool) :
  cw ∈ prepared_codewords → length ex = 15%nat → length ez = 15%nat →
  bool_decide (corrected ex (GF2.syndrome H_matrix ex) ∈ prepared_codewords)
  = b →
  ∃ bits, trial cw ex ez = Some bits ∧ scored_numpy bits = b.
Proof.
  intros Hcw Hx Hz Hb.
  destruct (trial_scored cw ex ez (prepared_codewords_length cw Hcw) Hx Hz)
    as (Ht & _ & _ & Hs).
  eexists. split; [exact Ht|]. rewrite Hs, <- Hb.
  apply bool_decide_ext, scored_iff_codeword; [exact Hcw|].
  rewrite corrected_length. exact Hx.
Qed.

Lemma pauli_at_length (k : Pauli.kind) (q : nat) :
  length (pauli_at k q).1 = 15%nat ∧ length (pauli_at k q).2 = 15%nat.
Proof. destruct k; cbn; split; try reflexivity; apply length_insert. Qed.

(** A trial with one Pauli error is scored a success. *)
Lemma single_pauli_scored (k : Pauli.kind) (q : nat) (cw : GF2.bitvector) :
  (q < 15)%nat → cw ∈ prepared_codewords →
  ∃ bits, trial cw (pauli_at k q).1 (pauli_at k q).2 = Some bits
          ∧ scored_numpy bits = true.
Proof.
  intros Hq Hcw. destruct (pauli_at_length k q) as [H1 H2].
  apply (trial_score cw _ _ true Hcw H1 H2).
  do 15 (destruct q as [|q]; [destruct k; vm_compute; reflexivity|]). lia.
Qed.

(** X5. One Pauli operator X, Y or Z on any one of the 15 encoding
    qubits (or none) is undone: the decoding stages apply the X gate,
    the X and the Z gate, or the Z gate of that very qubit, no error is
    left, and the trial is scored a success for every prepared
    codeword. *)
Theorem single_pauli_is_corrected (k : Pauli.kind) (q : nat)
    (cw : GF2.bitvector) :
  (q < 15)%nat → cw ∈ prepared_codewords →
  ∃ d bits,
    decode (pauli_at k q).1 (pauli_at k q).2 = Some d
    ∧ applied d = match k with
                  | Pauli.identity => []
                  | Pauli.X_error => [x q]
                  | Pauli.Y_error => [x q; z q]
                  | Pauli.Z_error => [z q]
                  end
    ∧ left_x d = GF2.zero 15 ∧ left_z d = GF2.zero 15
    ∧ trial cw (pauli_at k q).1 (pauli_at k q).2 = Some bits
    ∧ scored_numpy bits = true.
Proof.
  intros Hq Hcw.
  destruct (single_pauli_scored k q cw Hq Hcw) as (bits & Ht & Hs).
  assert (Hd : ∃ d, decode (pauli_at k q).1 (pauli_at k q).2 = Some d
    ∧ applied d = match k with
                  | Pauli.identity => []
                  | Pauli.X_error => [x q]
                  | Pauli.Y_error => [x q; z q]
                  | Pauli.Z_error => [z q]
                  end
    ∧ left_x d = GF2.zero 15 ∧ left_z d = GF2.zero 15).
  { clear -Hq.
    do 15 (destruct q as [|q];
      [destruct k; (eexists; split; [vm_compute; reflexivity|]);
       repeat split; reflexivity|]).
    lia. }
  destruct Hd as (d & Hd & Ha & Hlx & Hlz).
  exists d, bits. repeat split; assumption.
Qed.

Lemma single_pauli_is_corrected_witness :
  (4 < 15)%nat ∧ GF2.zero 15 ∈ prepared_codewords
  ∧ ∃ d bits,
    decode (GF2.unit 15 4) (GF2.unit 15 4) = Some d
    ∧ applied d = [x 4; z 4]
    ∧ left_x d = GF2.zero 15 ∧ left_z d = GF2.zero 15
    ∧ trial (GF2.zero 15) (GF2.unit 15 4) (GF2.unit 15 4) = Some bits
    ∧ scored_numpy bits = true.
Proof.
  assert (H4 : (4 < 15)%nat) by lia.
  assert (Hz : GF2.zero 15 ∈ prepared_codewords) by by_evaluation.
  split; [exact H4|]. split; [exact Hz|].
  exact (single_pauli_is_corrected Pauli.Y_error 4 (GF2.zero 15) H4 Hz).
Defined.

(** X6. Two X errors on distinct qubits [a] and [b], with any Z error,
    have the syndrome [(a+1) xor (b+1)], which points at a third qubit
    [c]; the decoding stages flip [c], which leaves an X error on three
    qubits with syndrome 0, and the trial is scored a failure for every
    prepared codeword. *)
Theorem two_bit_flips_are_miscorrected (a b : nat) (ez cw : GF2.bitvector) :
  (a < b < 15)%nat → length ez = 15%nat → cw ∈ prepared_codewords →
  let ex := GF2.add (GF2.unit 15 a) (GF2.unit 15 b) in
  let v := Z.lxor (Z.of_nat a + 1) (Z.of_nat b + 1) in
  let c := Z.to_nat (v - 1) in
  GF2.syndrome H_matrix ex = v
  ∧ (c < 15)%nat ∧ c ≠ a ∧ c ≠ b
  ∧ ∃ d bits,
      decode ex ez = Some d
      ∧ x_syndrome d = v
      ∧ left_x d = GF2.add ex (GF2.unit 15 c)
      ∧ GF2.syndrome H_matrix (left_x d) = 0
      ∧ trial cw ex ez = Some bits
      ∧ scored_numpy bits = false.
Proof.
  intros Hab Hz Hcw ex v c.
  assert (Hx : length ex = 15%nat).
  { unfold ex, GF2.add, GF2.unit, GF2.zero, GF2.bitvector.
    rewrite length_zip_with, !length_insert, !length_replicate. reflexivity. }
  destruct (trial_score cw ex ez false Hcw Hx Hz) as (bits & Ht & Hs).
  { subst ex. clear -Hab.
    do 15 (destruct a as [|a];
      [do 15 (destruct b as [|b]; [first [lia | vm_compute; reflexivity]|]); lia|]).
    lia. }
  assert (Hv : GF2.syndrome H_matrix ex = v ∧ (c < 15)%nat ∧ c ≠ a ∧ c ≠ b
               ∧ corrected ex v = GF2.add ex (GF2.unit 15 c)
               ∧ GF2.syndrome H_matrix (corrected ex v) = 0).
  { subst ex v c. clear -Hab.
    do 15 (destruct a as [|a];
      [do 15 (destruct b as [|b];
         [first [lia | vm_compute; repeat split; first [reflexivity | lia]]|]);
       lia|]).
    lia. }
  destruct Hv as (Hs1 & Hc & Hca & Hcb & Hcor & Hsyn).
  split; [exact Hs1|]. split; [exact Hc|]. split; [exact Hca|].
  split; [exact Hcb|].
  eexists _, bits. split; [apply decode_eq; assumption|].
  cbn [x_syndrome left_x]. rewrite Hs1.
  repeat split; assumption.
Qed.

(** X8. The Z error changes neither the X syndrome register nor the
    output register nor the score of a trial: two trials with the same
    noise-free output and the same X error agree on them. *)
Theorem phase_errors_do_not_change_outcome (cw ex ez ez' : GF2.bitvector) :
  length cw = 15%nat → length ex = 15%nat →
  length ez = 15%nat → length ez' = 15%nat →
  ∃ bits bits',
    trial cw ex ez = Some bits ∧ trial cw ex ez' = Some bits'
    ∧ register_key x_syndromes bits = register_key x_syndromes bits'
    ∧ register_key output_measurements bits
      = register_key output_measurements bits'
    ∧ scored_numpy bits = scored_numpy bits'.
Proof.
  intros Hc Hx Hz Hz'.
  destruct (trial_scored cw ex ez Hc Hx Hz) as (Ht & Hsx & Hout & Hs).
  destruct (trial_scored cw ex ez' Hc Hx Hz') as (Ht' & Hsx' & Hout' & Hs').
  eexists _, _. split; [exact Ht|]. split; [exact Ht'|].
  rewrite Hsx, Hsx', Hout, Hout', Hs, Hs'. repeat split; reflexivity.
Qed.

Lemma phase_errors_do_not_change_outcome_witness :
  length (GF2.zero 15) = 15%nat ∧ length (GF2.unit 15 3) = 15%nat
  ∧ length (GF2.unit 15 7) = 15%nat
  ∧ ∃ bits bits',
    trial (GF2.zero 15) (GF2.unit 15 3) (GF2.zero 15) = Some bits
    ∧ trial (GF2.zero 15) (GF2.unit 15 3) (GF2.unit 15 7) = Some bits'
    ∧ register_key x_syndromes bits = register_key x_syndromes bits'
    ∧ register_key output_measurements bits
      = register_key output_measurements bits'
    ∧ scored_numpy bits = scored_numpy bits'.
Proof.
  split; [reflexivity|]. split; [reflexivity|]. split; [reflexivity|].
  apply (phase_errors_do_not_change_outcome
           (GF2.zero 15) (GF2.unit 15 3) (GF2.zero 15) (GF2.unit 15 7));
    reflexivity.
Defined.

Lemma add_zero_r (v : GF2.bitvector) :
  length v = 15%nat → GF2.add v (GF2.zero 15) = v.
Proof.
  intros H. list_of_length v H 15. cbn. rewrite ?xorb_false_r. reflexivity.
Qed.

(** X9. With no X error, whatever the Z error, the output register
    holds the noise-free codeword and the trial is scored a success. *)
Theorem phase_errors_alone_are_not_scored (cw ez : GF2.bitvector) :
  cw ∈ prepared_codewords → length ez = 15%nat →
  ∃ bits, trial cw (GF2.zero 15) ez = Some bits
          ∧ register_key output_measurements bits = Bitstring.key cw
          ∧ scored_numpy bits = true.
Proof.
  intros Hcw Hz.
  pose proof (prepared_codewords_length cw Hcw) as Hc.
  destruct (trial_scored cw (GF2.zero 15) ez Hc eq_refl Hz)
    as (Ht & _ & Hout & Hs).
  eexists. split; [exact Ht|].
  change (corrected (GF2.zero 15) (GF2.syndrome H_matrix (GF2.zero 15)))
    with (GF2.zero 15) in *.
  rewrite (add_zero_r cw Hc) in *.
  split; [exact Hout|]. rewrite Hs. apply bool_decide_eq_true.
  clear -Hcw. vm_compute in Hcw.
  repeat (apply elem_of_cons in Hcw as [-> | Hcw]; [by_evaluation|]).
  apply elem_of_nil in Hcw. contradiction.
Qed.

Lemma phase_errors_alone_are_not_scored_witness :
  let cw := Bitstring.of_key "110000110011110" in
  let ez := GF2.add (GF2.unit 15 0) (GF2.unit 15 5) in
  cw ∈ prepared_codewords ∧ length ez = 15%nat
  ∧ ∃ bits, trial cw (GF2.zero 15) ez = Some bits
            ∧ register_key output_measurements bits = Bitstring.key cw
            ∧ scored_numpy bits = true.
Proof.
  cbv zeta.
  assert (Hcw : Bitstring.of_key "110000110011110" ∈ prepared_codewords)
    by by_evaluation.
  split; [exact Hcw|]. split; [reflexivity|].
  apply (phase_errors_alone_are_not_scored _ _ Hcw). reflexivity.
Defined.

(** ** The circuit of [CSS_correction_numpy] run *)

Lemma toggle_lookup (l : list bool) (q : nat) (v b : bool) :
  l !! q = Some v → PauliFrame.toggle l q b = Some (<[q := xorb v b]> l).
Proof. intros H. unfold PauliFrame.toggle. rewrite H. reflexivity. Qed.

(** The gates of one call of [pauli_error_numpy], moved to qubit [i]:
    the X part of the error of that qubit is flipped when exactly one of
    the first two tests holds, its Z part when exactly one of the last
    two does. *)
Lemma stacked_gates_shot ω (p u : Q) (i : nat) fx fz cl fd (a b : bool) :
  fx !! i = Some a → fz !! i = Some b →
  PauliFrame.shot ω (map (remap (λ _, i) (λ c, c)) (stacked_gates p u))
    (PauliFrame.mkState fx fz cl fd)
  = Some (PauliFrame.mkState
            (<[i := xorb a (xorb (Py.lt u p) (Py.lt u (2 * p)))]> fx)
            (<[i := xorb b (xorb (Py.lt u (2 * p)) (Py.lt u (3 * p)))]> fz)
            cl fd).
Proof.
  intros Hx Hz.
  pose proof (lookup_lt_Some _ _ _ Hx) as Hlx.
  pose proof (lookup_lt_Some _ _ _ Hz) as Hlz.
  unfold stacked_gates.
  destruct (Py.lt u p), (Py.lt u (2 * p)), (Py.lt u (3 * p));
    cbn [app map remap PauliFrame.shot PauliFrame.chain PauliFrame.step
         PauliFrame.gate PauliFrame.fx PauliFrame.fz PauliFrame.clbits
         PauliFrame.fired];
    repeat first
      [ rewrite (toggle_lookup _ _ _ _ Hx)
      | rewrite (toggle_lookup _ _ _ _ Hz)
      | erewrite toggle_lookup by (apply list_lookup_insert_eq; assumption)
      | progress cbn [mbind option_bind PauliFrame.fx PauliFrame.fz
                      PauliFrame.clbits PauliFrame.fired] ];
    rewrite ?list_insert_insert_eq;
    destruct a, b; cbn [xorb];
    rewrite ?(list_insert_id _ _ _ Hx), ?(list_insert_id _ _ _ Hz);
    reflexivity.
Qed.

(** The error gates of the circuit put the sampled error on the encoding
    qubits. *)
Lemma numpy_noise_shot ω (p : Q) (randnums : nat → Q) :
  PauliFrame.shot ω (numpy_noise p randnums)
    (PauliFrame.inject (GF2.zero 15) (GF2.zero 15))
  = Some (PauliFrame.inject (sampled_x p randnums) (sampled_z p randnums)).
Proof.
  unfold numpy_noise. cbn [seq flat_map].
  unfold PauliFrame.inject. cbn [GF2.zero replicate app].
  do 15 (rewrite shot_app,
           (stacked_gates_shot ω p _ _ _ _ _ _ false false) by reflexivity;
         cbn [mbind option_bind insert list_insert xorb]).
  reflexivity.
Qed.

Lemma encoder_keeps_no_error ω :
  PauliFrame.shot ω encoder (PauliFrame.inject (GF2.zero 15) (GF2.zero 15))
  = Some (PauliFrame.inject (GF2.zero 15) (GF2.zero 15)).
Proof. reflexivity. Qed.


Lemma not_hit (u p : Q) :
  (0 <= p)%Q → (3 * p <= u)%Q →
  Py.lt u p = false ∧ Py.lt u (2 * p) = false ∧ Py.lt u (3 * p) = false.
Proof.
  intros Hp Hu.
  assert (H3 : Py.lt u (3 * p) = false) by (apply lt_false_iff; exact Hu).
  split; [|split; [|exact H3]].
  - destruct (Py.lt u p) eqn:E; [|reflexivity].
    rewrite (lt_scale u p 3 Hp ltac:(discriminate) E) in H3. discriminate.
  - destruct (Py.lt u (2 * p)) eqn:E; [|reflexivity].
    rewrite (lt_2_3 u p Hp E) in H3. discriminate.
Qed.

(** When every qubit but [q] draws at least [3p], the sampled error is
    one Pauli operator on [q], or none. *)
Lemma sampled_single (p : Q) (randnums : nat → Q) (q : nat) :
  (0 <= p)%Q → (q < 15)%nat →
  (∀ i, (i < 15)%nat → i ≠ q → (3 * p <= randnums i)%Q) →
  ∃ k, sampled_x p randnums = (pauli_at k q).1
       ∧ sampled_z p randnums = (pauli_at k q).2.
Proof.
  intros Hp Hq Hall.
  assert (Hno : ∀ i, (i < 15)%nat → i ≠ q →
            Py.lt (randnums i) p = false
            ∧ Py.lt (randnums i) (2 * p) = false
            ∧ Py.lt (randnums i) (3 * p) = false).
  { intros i Hi Hne. apply not_hit; [exact Hp | apply Hall; assumption]. }
  clear Hall. unfold sampled_x, sampled_z. cbn [seq map].
  do 15 (destruct q as [|q];
    [repeat match goal with
       | |- context [Py.lt (randnums ?i) p] =>
           destruct (Hno i ltac:(lia) ltac:(lia)) as (-> & -> & ->)
       end;
     match goal with
     | |- context [Py.lt (randnums ?i) p] =>
         destruct (Py.lt (randnums i) p), (Py.lt (randnums i) (2 * p)),
           (Py.lt (randnums i) (3 * p))
     end;
     first [ exists Pauli.identity; split; reflexivity
           | exists Pauli.X_error; split; reflexivity
           | exists Pauli.Y_error; split; reflexivity
           | exists Pauli.Z_error; split; reflexivity ]|]).
  lia.
Qed.

(** X11. For [p >= 0], when the draws of all encoding qubits but one
    are at least [3p], the circuit that [CSS_correction_numpy] returns
    ends, for every prepared codeword as noise-free output, with classical
    bits that are scored a success. *)
Theorem at_most_one_hit_is_a_success (p : Q) (randnums : nat → Q) (q : nat)
    (cw : GF2.bitvector) :
  (0 <= p)%Q → (q < 15)%nat →
  (∀ i, (i < 15)%nat → i ≠ q → (3 * p <= randnums i)%Q) →
  cw ∈ prepared_codewords →
  ∃ qc s, CSS_correction_numpy p randnums = Py.Returns qc
          ∧ PauliFrame.shot (noise_free cw) (data qc)
              (PauliFrame.inject (GF2.zero 15) (GF2.zero 15)) = Some s
          ∧ scored_numpy (PauliFrame.clbits s) = true.
Proof.
  intros Hp Hq Hall Hcw.
  destruct (sampled_single p randnums q Hp Hq Hall) as (k & Hsx & Hsz).
  destruct (single_pauli_scored k q cw Hq Hcw) as (bits & Ht & Hs).
  unfold trial in Ht. rewrite <- Hsx, <- Hsz in Ht.
  destruct (PauliFrame.shot (noise_free cw) decoding
              (PauliFrame.inject (sampled_x p randnums)
                                 (sampled_z p randnums)))
    as [s|] eqn:Hshot; [|discriminate Ht].
  cbn in Ht. injection Ht as <-.
  eexists _, s. split; [apply CSS_correction_numpy_returns|].
  split; [|exact Hs]. cbn [data].
  rewrite shot_app, encoder_keeps_no_error. cbn [mbind option_bind].
  rewrite shot_app, numpy_noise_shot. exact Hshot.
Qed.

Lemma at_most_one_hit_is_a_success_witness :
  let randnums := λ i : nat, if (i =? 6)%nat then 3 # 10 else 9 # 10 in
  (0 <= 1 # 5)%Q ∧ (6 < 15)%nat
  ∧ (∀ i, (i < 15)%nat → i ≠ 6%nat → (3 * (1 # 5) <= randnums i)%Q)
  ∧ GF2.zero 15 ∈ prepared_codewords
  ∧ ∃ qc s, CSS_correction_numpy (1 # 5) randnums = Py.Returns qc
            ∧ PauliFrame.shot (noise_free (GF2.zero 15)) (data qc)
                (PauliFrame.inject (GF2.zero 15) (GF2.zero 15)) = Some s
            ∧ scored_numpy (PauliFrame.clbits s) = true.
Proof.
  cbv zeta.
  assert (Hp : (0 <= 1 # 5)%Q) by discriminate.
  assert (Hq : (6 < 15)%nat) by lia.
  assert (Hall : ∀ i, (i < 15)%nat → i ≠ 6%nat →
            (3 * (1 # 5) <= (if (i =? 6)%nat then 3 # 10 else 9 # 10))%Q).
  { intros i _ Hne. destruct (Nat.eqb_spec i 6); [contradiction|discriminate]. }
  assert (Hcw : GF2.zero 15 ∈ prepared_codewords) by by_evaluation.
  split; [exact Hp|]. split; [exact Hq|]. split; [exact Hall|].
  split; [exact Hcw|].
  exact (at_most_one_hit_is_a_success (1 # 5) _ 6 (GF2.zero 15) Hp Hq Hall Hcw).
Defined.

(** ** The circuit of [CSS_correction] *)

Lemma in_domain_divisor (p : Q) :
  (0 <= p <= 1 # 3)%Q → Qeq_bool (1 - 2 * p) 0 = false.
Proof.
  intros [_ Hp]. destruct (Qeq_bool (1 - 2 * p) 0) eqn:E; [|reflexivity].
  apply Qeq_bool_iff in E. lra.
Qed.

(** X2. For [p] in [0, 1/3], [CSS_correction] returns a circuit on 25
    qubits and 25 classical bits, made of the same encoder and decoding
    stages as [CSS_correction_numpy] around the 15 error circuits of
    [pauli_error], of 11 instructions each, on the same two ancillas and
    two classical bits; every instruction names bits the circuit
    has. *)
Theorem CSS_correction_in_domain (p : Q) :
  (0 <= p <= 1 # 3)%Q →
  ∃ qc, CSS_correction p = Py.Returns qc
        ∧ num_qubits qc = 25%nat ∧ num_clbits qc = 25%nat
        ∧ data qc = encoder ++ ancilla_noise p ++ decoding
        ∧ length (ancilla_noise p) = (15 * 11)%nat
        ∧ Forall (λ i, in_range 25 (qargs i) = true
                       ∧ in_range 25 (cargs i) = true) (data qc).
Proof.
  intros Hp. eexists.
  split; [apply CSS_correction_returns, in_domain_divisor, Hp|].
  split; [reflexivity|]. split; [reflexivity|]. split; [reflexivity|].
  split; [reflexivity|]. cbn [data].
  rewrite !Forall_app. repeat split.
  - apply (bool_decide_unpack _). vm_compute. exact I.
  - unfold ancilla_noise, pauli_error_gates. cbn [seq flat_map map remap app].
    repeat (apply Forall_cons; split; [split; reflexivity|]). constructor.
  - apply (bool_decide_unpack _). vm_compute. exact I.
Qed.

Lemma CSS_correction_in_domain_witness :
  (0 <= 1 # 5 <= 1 # 3)%Q
  ∧ ∃ qc, CSS_correction (1 # 5) = Py.Returns qc
        ∧ num_qubits qc = 25%nat ∧ num_clbits qc = 25%nat
        ∧ data qc = encoder ++ ancilla_noise (1 # 5) ++ decoding
        ∧ length (ancilla_noise (1 # 5)) = (15 * 11)%nat
        ∧ Forall (λ i, in_range 25 (qargs i) = true
                       ∧ in_range 25 (cargs i) = true) (data qc).
Proof.
  assert (H : (0 <= 1 # 5 <= 1 # 3)%Q) by (split; discriminate).
  split; [exact H|]. exact (CSS_correction_in_domain (1 # 5) H).
Defined.

(** ** The branches of [pauli_error] *)

(** X13. After the rotations of [pauli_error], with its two ancillas
    in the basis state [(a0, a1)] (written as the X error that takes 0
    to it), the measurement and the four branches apply one Pauli
    operator to the error qubit, X, Y, Z or none for the register values
    0, 1, 2, 3, and leave both ancillas at 0, as the next error circuit
    on the same ancillas needs them. *)
Theorem pauli_error_applies_one_pauli (p : Q) (qc : QuantumCircuit)
    (a0 a1 ex ez : bool) :
  pauli_error p = Py.Returns qc →
  let o := branch_operator (GF2.value [a0; a1]) in
  ∃ body,
    PauliFrame.shot (λ _, false) (measured_branches (data qc))
      (PauliFrame.mkState [ex; a0; a1] [ez; false; false] [false; false] [])
    = Some (PauliFrame.mkState
              [xorb ex (Pauli.xpart o); false; false]
              [xorb ez (Pauli.zpart o); false; false]
              [a0; a1] body)
    ∧ Pauli.operator (filter (λ i, qargs i = [0%nat]) body) = Some o.
Proof.
  intros Hqc o. unfold pauli_error in Hqc.
  destruct (Qeq_bool (1 - 2 * p) 0); [discriminate Hqc|].
  vm_compute in Hqc. injection Hqc as <-. subst o.
  destruct a0, a1, ex, ez; (eexists; split; [vm_compute; reflexivity|]);
    reflexivity.
Qed.

Lemma pauli_error_applies_one_pauli_witness :
  ∃ qc, pauli_error (1 # 5) = Py.Returns qc
    ∧ ∃ body,
      PauliFrame.shot (λ _, false) (measured_branches (data qc))
        (PauliFrame.mkState [false; true; false] [false; false; false]
                            [false; false] [])
      = Some (PauliFrame.mkState [true; false; false] [true; false; false]
                                 [true; false] body)
      ∧ Pauli.operator (filter (λ i, qargs i = [0%nat]) body) = Some Pauli.Y.
Proof.
  eexists. split; [lazy; reflexivity|].
  apply (pauli_error_applies_one_pauli (1 # 5) _ true false false false).
  lazy. reflexivity.
Defined.

(** ** The syndromes without noise *)

(** X14. The X syndrome stage is its CNOT gates followed by the four
    measurements; on each of the basis states the encoder prepares, the
    CNOT gates leave the encoding qubits as they are and all the
    ancillas at 0: without noise the X syndrome is 0. *)
Theorem noise_free_x_syndromes_are_zero :
  instructions_of 23 x_syndrome_stage
  = x_syndrome_cnots ++ zip_with measure x_ancillas x_syndromes
  ∧ ∃ states,
      Basis.run (encoder ++ x_syndrome_cnots) [GF2.zero 23] = Some states
      ∧ Some (map (take 15) states) = encoder_codewords
      ∧ Forall (λ v, drop 15 v = GF2.zero 8) states.
Proof.
  split; [reflexivity|].
  eexists. split; [vm_compute; reflexivity|]. split; [reflexivity|].
  repeat (apply Forall_cons; split; [reflexivity|]). constructor.
Qed.

(** ** The success rate *)

Lemma count_successes_acc (test : string → bool) (counts : list (string * Z))
    (acc : Z) :
  foldl (λ success kc, if test kc.1 then success + kc.2 else success) acc counts
  = acc + count_successes test counts.
Proof.
  unfold count_successes. revert acc.
  induction counts as [|kc counts IH]; intros acc; cbn [foldl]; [lia|].
  rewrite IH, (IH (if test kc.1 then 0 + kc.2 else 0)).
  destruct (test kc.1); lia.
Qed.

Lemma count_successes_cons test kc counts :
  count_successes test (kc :: counts)
  = (if test kc.1 then kc.2 else 0) + count_successes test counts.
Proof.
  unfold count_successes at 1. cbn [foldl].
  rewrite count_successes_acc. destruct (test kc.1); lia.
Qed.

Lemma count_successes_bounds test counts :
  Forall (λ kc, 0 <= kc.2) counts →
  0 <= count_successes test counts <= shots counts
  ∧ (count_successes test counts = shots counts
     ↔ Forall (λ kc, 0 < kc.2 → test kc.1 = true) counts).
Proof.
  induction 1 as [|kc counts Hkc _ IH].
  - split; [cbn; lia|]. split; [constructor | reflexivity].
  - destruct IH as [Hb Hiff]. rewrite count_successes_cons.
    unfold shots in *. cbn [map foldr].
    split; [destruct (test kc.1); lia|].
    rewrite Forall_cons. split.
    + intros Heq. split.
      * intros Hpos. destruct (test kc.1); [reflexivity | lia].
      * apply Hiff. destruct (test kc.1); lia.
    + intros [Hhd Htl]. apply Hiff in Htl.
      destruct (test kc.1) eqn:E; [lia|].
      destruct (Z.eq_dec (kc.2) 0) as [H0 | Hne]; [lia|].
      assert (Hpos : 0 < kc.2) by lia. specialize (Hhd Hpos). discriminate.
Qed.

(** X15. For counts that are not negative and add up to [rounds > 0],
    the loop of the scoring cells returns a rate between 0 and 1, which
    is 1 exactly when every key that was counted passes the test. *)
Theorem success_rate_bounds (test : string → bool)
    (counts : list (string * Z)) (rounds : Z) :
  Forall (λ kc, 0 <= kc.2) counts → shots counts = rounds → 0 < rounds →
  ∃ rate, success_rate test counts rounds = Py.Returns rate
          ∧ (0 <= rate <= 1)%Q
          ∧ ((rate == 1)%Q
             ↔ Forall (λ kc, 0 < kc.2 → test kc.1 = true) counts).
Proof.
  intros Hnn Hshots Hpos.
  destruct (count_successes_bounds test counts Hnn) as [[Hlo Hhi] Hiff].
  rewrite Hshots in Hhi, Hiff.
  unfold success_rate. destruct (Z.eqb_spec rounds 0) as [E | _]; [lia|].
  eexists. split; [reflexivity|].
  assert (Hr : (0 < inject_Z rounds)%Q).
  { change 0%Q with (inject_Z 0). rewrite <- Zlt_Qlt. exact Hpos. }
  split; [split|].
  - apply Qle_shift_div_l; [exact Hr|]. rewrite Qmult_0_l.
    change 0%Q with (inject_Z 0). rewrite <- Zle_Qle. exact Hlo.
  - apply Qle_shift_div_r; [exact Hr|]. rewrite Qmult_1_l.
    rewrite <- Zle_Qle. exact Hhi.
  - rewrite <- Hiff. split.
    + intros Hq. apply (Qmult_inj_r _ _ (inject_Z rounds)) in Hq; [|lra].
      rewrite Qmult_1_l in Hq. unfold Qdiv in Hq.
      rewrite <- Qmult_assoc, (Qmult_comm (/ _)), Qmult_inv_r, Qmult_1_r in Hq
        by lra.
      unfold Qeq, inject_Z in Hq. cbn in Hq. lia.
    + intros ->. unfold Qdiv. apply Qmult_inv_r. lra.
Qed.

Lemma success_rate_bounds_witness :
  let test := λ key : string,
    bool_decide (slice 0 15 key ∈ logical_zero_components) in
  let counts := [("000000000000000 0000 0000"%string, 7);
                 ("000000000000011 0000 0011"%string, 3)] in
  Forall (λ kc : string * Z, 0 <= kc.2) counts ∧ shots counts = 10 ∧ 0 < 10
  ∧ ∃ rate, success_rate test counts 10 = Py.Returns rate
          ∧ (0 <= rate <= 1)%Q
          ∧ ((rate == 1)%Q
             ↔ Forall (λ kc, 0 < kc.2 → test kc.1 = true) counts).
Proof.
  cbv zeta.
  assert (Hnn : Forall (λ kc : string * Z, 0 <= kc.2)
                  [("000000000000000 0000 0000"%string, 7);
                   ("000000000000011 0000 0011"%string, 3)]).
  { repeat (apply Forall_cons; split; [cbn; lia|]). constructor. }
  assert (Hpos : 0 < 10) by lia.
  split; [exact Hnn|]. split; [reflexivity|]. split; [exact Hpos|].
  exact (success_rate_bounds _ _ 10 Hnn eq_refl Hpos).
Defined.

(** X16. In the circuit of the last cell, for the ancillas measured in
    [(a0, a1)], the key of [get_counts()] is [1 00] for the register
    value 0 (X), [1 01] for 1 (Y), [0 10] for 2 (Z) and [0 11] for 3
    (no error): the four keys of the dictionary the cell shows. *)
Theorem pauli_error_check_keys (p : Q) (qc : QuantumCircuit) (a0 a1 : bool) :
  pauli_error_check p = Py.Returns qc →
  ∃ s, PauliFrame.shot (λ _, false) (measured_branches (data qc))
         (PauliFrame.mkState [false; a0; a1] [false; false; false]
                             [false; false; false] [])
       = Some s
       ∧ counts_key cregs_check (PauliFrame.clbits s)
         = match GF2.value [a0; a1] with
           | 0 => "1 00"
           | 1 => "1 01"
           | 2 => "0 10"
           | _ => "0 11"
           end%string.
Proof.
  intros Hqc. unfold pauli_error_check, pauli_error in Hqc.
  destruct (Qeq_bool (1 - 2 * p) 0); [discriminate Hqc|].
  vm_compute in Hqc. injection Hqc as <-.
  destruct a0, a1; (eexists; split; [vm_compute; reflexivity|]); reflexivity.
Qed.

Lemma pauli_error_check_keys_witness :
  ∃ qc, pauli_error_check (1 # 5) = Py.Returns qc
    ∧ ∃ s, PauliFrame.shot (λ _, false) (measured_branches (data qc))
             (PauliFrame.mkState [false; false; true] [false; false; false]
                                 [false; false; false] [])
           = Some s
           ∧ counts_key cregs_check (PauliFrame.clbits s) = "0 10"%string.
Proof.
  eexists. split; [lazy; reflexivity|].
  apply (pauli_error_check_keys (1 # 5) _ false true). lazy. reflexivity.
Defined.

(** ** Instances *)

Lemma syndrome_extraction_reads_witness :
  let ex := GF2.add (GF2.unit 15 2) (GF2.unit 15 9) in
  let ez := GF2.unit 15 14 in
  length ex = 15%nat ∧ length ez = 15%nat
  ∧ ∃ s, PauliFrame.run syndrome_extraction (PauliFrame.inject ex ez) = Some s
         ∧ PauliFrame.read x_syndromes s = Some (GF2.syndrome H_matrix ex)
         ∧ PauliFrame.read z_syndromes s = Some (GF2.syndrome H_matrix ez)
         ∧ residual_x s = ex ∧ residual_z s = ez.
Proof.
  cbv zeta. split; [reflexivity|]. split; [reflexivity|].
  apply syndrome_extraction_reads; reflexivity.
Defined.

Lemma decode_is_lookup_witness :
  let ex := GF2.add (GF2.unit 15 2) (GF2.unit 15 9) in
  let ez := GF2.unit 15 14 in
  length ex = 15%nat ∧ length ez = 15%nat
  ∧ decode ex ez
    = Some (mkDecoded 9 15 [x 8; z 14]
              (GF2.add ex (GF2.unit 15 8)) (GF2.zero 15)).
Proof.
  cbv zeta. split; [reflexivity|]. split; [reflexivity|].
  exact (proj1 (decode_is_lookup (GF2.add (GF2.unit 15 2) (GF2.unit 15 9))
                                 (GF2.unit 15 14) eq_refl eq_refl)).
Defined.

Lemma trial_succeeds_iff_residual_is_codeword_witness :
  let cw := Bitstring.of_key "110000110011110" in
  let ex := GF2.add (GF2.unit 15 2) (GF2.unit 15 9) in
  cw ∈ prepared_codewords ∧ length ex = 15%nat
  ∧ length (GF2.zero 15) = 15%nat
  ∧ ∃ bits, trial cw ex (GF2.zero 15) = Some bits
            ∧ (scored_numpy bits = true
               ↔ corrected ex (GF2.syndrome H_matrix ex) ∈ prepared_codewords).
Proof.
  cbv zeta.
  assert (Hcw : Bitstring.of_key "110000110011110" ∈ prepared_codewords)
    by by_evaluation.
  split; [exact Hcw|]. split; [reflexivity|]. split; [reflexivity|].
  apply (trial_succeeds_iff_residual_is_codeword _ _ _ Hcw); reflexivity.
Defined.

Lemma two_bit_flips_are_miscorrected_witness :
  (2 < 9 < 15)%nat ∧ length (GF2.unit 15 14) = 15%nat
  ∧ GF2.zero 15 ∈ prepared_codewords
  ∧ GF2.syndrome H_matrix (GF2.add (GF2.unit 15 2) (GF2.unit 15 9)) = 9
  ∧ ∃ d bits,
      decode (GF2.add (GF2.unit 15 2) (GF2.unit 15 9)) (GF2.unit 15 14) = Some d
      ∧ x_syndrome d = 9
      ∧ left_x d = GF2.add (GF2.add (GF2.unit 15 2) (GF2.unit 15 9))
                           (GF2.unit 15 8)
      ∧ GF2.syndrome H_matrix (left_x d) = 0
      ∧ trial (GF2.zero 15) (GF2.add (GF2.unit 15 2) (GF2.unit 15 9))
              (GF2.unit 15 14) = Some bits
      ∧ scored_numpy bits = false.
Proof.
  assert (Hab : (2 < 9 < 15)%nat) by lia.
  assert (Hcw : GF2.zero 15 ∈ prepared_codewords) by by_evaluation.
  split; [exact Hab|]. split; [reflexivity|]. split; [exact Hcw|].
  destruct (two_bit_flips_are_miscorrected 2 9 (GF2.unit 15 14) (GF2.zero 15)
              Hab eq_refl Hcw) as (Hs & _ & _ & _ & Hd).
  split; [exact Hs | exact Hd].
Defined.

